(** * Daily test-statistics history: a shallow embedding of the two Node scripts

    [update-stats-history.js] folds the report manifest into per-day
    aggregates and merges them into the persisted history;
    [fix-stats-from-allure-data.js] recomputes the pass/fail counts of a report
    folder from Allure's summary widget.

    Modelling conventions.
    - JavaScript strings are [string]s: sequences of code units below 256
      (ASCII and Latin-1).  Case conversion, white space and line terminators
      are those of that range; text with other code units is outside the
      model.
    - JavaScript numbers are integers in [Z]: JSON counts are taken to be
      whole numbers, and the counters are sums of parsed integers, which
      doubles represent exactly below 2^53.
    - A JavaScript object used as a dictionary is a [gmap string _] holding its
      own properties.  What the bracket operators add on top of that (reads
      that fall through to [Object.prototype], the [__proto__] setter) is
      written out in [inherited] and [obj_set].
    - The fields of a manifest record that the generator always writes as JSON
      strings are [option string] ([None]: absent or [null]); the counts are
      arbitrary JSON scalars ([value]).  [StatsHistory.Raw] is the same script
      on records whose text fields are arbitrary JSON values, where a field
      that is no string makes the run throw.
    - Files and the console are explicit: [main] takes what the files hold and
      the clock, and returns the exit status, the console lines and what was
      written. *)

From Stdlib Require Import ZArith Ascii.
From stdpp Require Import gmap strings list sorting pretty.

Local Open Scope Z_scope.

(** ** JavaScript primitives used by the scripts *)
Module Js.

(** Scalars as they come out of [JSON.parse]. *)
Inductive value :=
  | VUndefined
  | VNull
  | VBool (b : bool)
  | VNumber (n : Z)
  | VString (s : string).

(** [String.prototype.toLowerCase].  Below 256 the upper-case letters are
    A-Z (65-90) and the Latin-1 capitals 192-214 and 216-222; each has its
    lower-case form 32 above.  The other code units map to themselves. *)
Definition lower_char (c : ascii) : ascii :=
  let n := nat_of_ascii c in
  if ((65 <=? n) && (n <=? 90)
      || (192 <=? n) && (n <=? 214)
      || (216 <=? n) && (n <=? 222))%nat
  then ascii_of_nat (n + 32) else c.

Fixpoint toLowerCase (s : string) : string :=
  match s with
  | EmptyString => EmptyString
  | String c s' => String (lower_char c) (toLowerCase s')
  end.

(** [s.includes(needle)]: [needle] occurs in [s] as a contiguous substring. *)
Fixpoint includes (s needle : string) : bool :=
  String.prefix needle s ||
  match s with
  | EmptyString => false
  | String _ s' => includes s' needle
  end.

(** [parseInt] without a radix argument.  Leading white space is skipped, one
    sign is read, a [0x]/[0X] prefix selects base 16, and the longest run of
    digits of the base is converted; [None] stands for [NaN]. *)
Definition digit_value (c : ascii) : option Z :=
  let n := Z.of_nat (nat_of_ascii c) in
  if (48 <=? n) && (n <=? 57) then Some (n - 48)
  else if (97 <=? n) && (n <=? 102) then Some (n - 87)
  else if (65 <=? n) && (n <=? 70) then Some (n - 55)
  else None.

Fixpoint parse_digits (radix : Z) (acc : option Z) (s : string) : option Z :=
  match s with
  | EmptyString => acc
  | String c s' =>
      match digit_value c with
      | Some d =>
          if d <? radix
          then parse_digits radix (Some (default 0 acc * radix + d)) s'
          else acc
      | None => acc
      end
  end.

(** White space and line terminators below 256: tab, line feed, vertical
    tab, form feed, carriage return, space and the no-break space. *)
Definition is_white_space (c : ascii) : bool :=
  bool_decide (nat_of_ascii c ∈ [9; 10; 11; 12; 13; 32; 160]%nat).

Fixpoint trim_start (s : string) : string :=
  match s with
  | EmptyString => EmptyString
  | String c s' => if is_white_space c then trim_start s' else s
  end.

Definition strip_sign (s : string) : bool * string :=
  match s with
  | String "-" r => (true, r)
  | String "+" r => (false, r)
  | _ => (false, s)
  end.

Definition strip_radix (s : string) : Z * string :=
  match s with
  | String "0" (String "x" r) => (16, r)
  | String "0" (String "X" r) => (16, r)
  | _ => (10, s)
  end.

Definition parseInt_string (s : string) : option Z :=
  let '(neg, s1) := strip_sign (trim_start s) in
  let '(radix, s2) := strip_radix s1 in
  (λ n, if neg : bool then - n else n) <$> parse_digits radix None s2.

(** [parseInt(v)] first converts [v] to a string: ["undefined"], ["null"],
    ["true"] and ["false"] have no leading digit, and an integer (below 10^21
    in magnitude, where numbers still print without an exponent) prints as its
    decimal numeral, which parses back to itself. *)
Definition parseInt (v : value) : option Z :=
  match v with
  | VUndefined | VNull | VBool _ => None
  | VNumber n => Some n
  | VString s => parseInt_string s
  end.

(** [x || 0] on a number: [NaN] and [0] are falsy. *)
Definition or_zero (x : option Z) : Z := default 0 x.

(** A JSON value where the scripts expect text: a scalar, or an array or an
    object, of which only the kind matters there. *)
Inductive json :=
  | Scalar (v : value)
  | Compound.

(** [!x] is false: every value but [undefined], [null], [false], [0] and the
    empty string. *)
Definition truthy (x : json) : bool :=
  match x with
  | Scalar VUndefined | Scalar VNull => false
  | Scalar (VBool b) => b
  | Scalar (VNumber n) => negb (n =? 0)
  | Scalar (VString s) => negb (String.eqb s "")
  | Compound => true
  end.

(** How an evaluation ends: with a value, or by throwing a [TypeError] (the
    only exception these scripts can raise outside a [try]). *)
Inductive completion (A : Type) :=
  | Normal (a : A)
  | TypeError.
Arguments Normal {A} a.
Arguments TypeError {A}.

#[global] Instance completion_ret : MRet completion := λ A a, Normal a.
#[global] Instance completion_bind : MBind completion := λ A B f c,
  match c with
  | Normal a => f a
  | TypeError => TypeError
  end.

(** [x.match(re)] and [x.toLowerCase()] exist on strings only: on a number, a
    boolean, an array or an object the property is [undefined], and calling
    it throws. *)
Definition as_string (x : json) : completion string :=
  match x with
  | Scalar (VString s) => Normal s
  | _ => TypeError
  end.

(** [x.toLowerCase()] *)
Definition call_toLowerCase (x : json) : completion string :=
  s ← as_string x; mret (toLowerCase s).

(** [x || ''] *)
Definition or_empty (x : json) : json :=
  if truthy x then x else Scalar (VString "").

(** Names every plain object inherits from [Object.prototype]; reading
    [o[k]] for such a [k] that is not an own property of [o] yields a function
    (or the prototype itself), which is truthy. *)
Definition inherited_names : list string :=
  [ "constructor"; "__proto__"; "hasOwnProperty"; "isPrototypeOf";
    "propertyIsEnumerable"; "toLocaleString"; "toString"; "valueOf";
    "__defineGetter__"; "__defineSetter__"; "__lookupGetter__";
    "__lookupSetter__" ].

Definition inherited (k : string) : bool := bool_decide (k ∈ inherited_names).

(** [o[k] = v] on a plain object: [__proto__] is an accessor of
    [Object.prototype], so assigning an object to it swaps the prototype and
    creates no own property. *)
Definition obj_set {V} (o : gmap string V) (k : string) (v : V) : gmap string V :=
  if decide (k = "__proto__") then o else <[k := v]> o.

(** [Object.keys(o).sort()]: the own keys under the default comparator, which
    orders strings by their code units. *)
Definition sorted_keys {V} (o : gmap string V) : list string :=
  merge_sort String.le (map_to_list o).*1.

End Js.

(** ** update-stats-history.js *)
Module StatsHistory.
Import Js.

(** One manifest record; only the fields the aggregator reads, the three
    text fields being strings or absent ([Raw] below lifts that). *)
Module Report.
Record ReportRecord := {
  timestamp : option string;
  environment : option string;
  job : option string;
  passed : value;
  failed : value
}.
End Report.
Abbreviation ReportRecord := Report.ReportRecord.

(** Counters [{ runs, passed, failed }]. *)
Module Stat.
Record DailyStat := { runs : Z; passed : Z; failed : Z }.
End Stat.
Abbreviation DailyStat := Stat.DailyStat.

Record DayEntry := {
  date : string;
  totals : DailyStat;
  platforms : gmap string DailyStat;
  environments : gmap string DailyStat
}.

Record HistoryLog := {
  lastUpdated : option string;
  entries : list DayEntry
}.

(** *** Platform detection from job name *)
Definition detectPlatform (job : option string) : string :=
  let j := toLowerCase (default "" job) in
  if includes j "android" then "android"
  else if includes j "ios" then "ios"
  else if includes j "browser" || includes j "desktop" || includes j "responsive"
  then "browser"
  else "other".

(** *** Normalize environment *)
Definition normalizeEnv (env : option string) : string :=
  let e := toLowerCase (default "" env) in
  if includes e "sandbox" then "sandbox"
  else if includes e "staging" then "staging"
  else if includes e "flux" then "flux"
  else if includes e "local" then "local"
  else if decide (e = "") then "unknown" else e.

(** *** Extract date from timestamp *)
Definition is_digit (c : ascii) : bool :=
  let n := nat_of_ascii c in ((48 <=? n) && (n <=? 57))%nat.

Definition is_dash (c : ascii) : bool := bool_decide (c = "-"%char).

(** The pattern [\d{4}-\d{2}-\d{2}], one test per position. *)
Definition date_shape : list (ascii → bool) :=
  [ is_digit; is_digit; is_digit; is_digit; is_dash;
    is_digit; is_digit; is_dash; is_digit; is_digit ].

(** Match [shape] at the start of [s] and return the matched text. *)
Fixpoint match_prefix (shape : list (ascii → bool)) (s : string) : option string :=
  match shape with
  | [] => Some EmptyString
  | p :: shape' =>
      match s with
      | EmptyString => None
      | String c s' => if p c then String c <$> match_prefix shape' s' else None
      end
  end.

Definition extractDate (timestamp : option string) : option string :=
  match timestamp with
  | None => None
  | Some EmptyString => None
  | Some s => match_prefix date_shape s
  end.

(** *** Aggregate manifest data by date *)
Definition zero_stat : DailyStat :=
  {| Stat.runs := 0; Stat.passed := 0; Stat.failed := 0 |}.

(** [s.runs++; s.passed += passed; s.failed += failed]. *)
Definition add_run (s : DailyStat) (passed failed : Z) : DailyStat :=
  {| Stat.runs := Stat.runs s + 1;
     Stat.passed := Stat.passed s + passed;
     Stat.failed := Stat.failed s + failed |}.

(** [if (!m[tag]) m[tag] = { runs: 0, passed: 0, failed: 0 }] followed by the
    three updates of [m[tag]].  When [tag] is not an own property but names a
    member of [Object.prototype], the read is truthy, nothing is initialised,
    and the three updates land on the inherited object: [m] gains no
    property. *)
Definition tally (m : gmap string DailyStat) (tag : string) (passed failed : Z)
    : gmap string DailyStat :=
  match m !! tag with
  | Some s => <[tag := add_run s passed failed]> m
  | None =>
      if inherited tag then m
      else <[tag := add_run zero_stat passed failed]> m
  end.

Definition fresh_day (d : string) : DayEntry :=
  {| date := d; totals := zero_stat; platforms := ∅; environments := ∅ |}.

(** The updates of [day] for one report: totals, platform, environment. *)
Definition update_day (day : DayEntry) (platform env : string) (passed failed : Z)
    : DayEntry :=
  {| date := date day;
     totals := add_run (totals day) passed failed;
     platforms := tally (platforms day) platform passed failed;
     environments := tally (environments day) env passed failed |}.

(** The body of [manifest.forEach].  The keys of [newDataByDate] all come out
    of [extractDate], so the read [newDataByDate[date]] never falls through to
    the prototype (see [extractDate_own_key]). *)
Definition add_report (newDataByDate : gmap string DayEntry) (report : ReportRecord)
    : gmap string DayEntry :=
  match extractDate (Report.timestamp report) with
  | None => newDataByDate
  | Some d =>
      let platform := detectPlatform (Report.job report) in
      let env := normalizeEnv (Report.environment report) in
      let passed := or_zero (parseInt (Report.passed report)) in
      let failed := or_zero (parseInt (Report.failed report)) in
      let day := default (fresh_day d) (newDataByDate !! d) in
      <[d := update_day day platform env passed failed]> newDataByDate
  end.

Definition aggregate (manifest : list ReportRecord) : gmap string DayEntry :=
  foldl add_report ∅ manifest.

(** *** Existing entries by date, merge, sort *)
Definition index_by_date (es : list DayEntry) : gmap string DayEntry :=
  foldl (λ existingMap entry, obj_set existingMap (date entry) entry) ∅ es.

(** [Object.keys(newDataByDate).forEach(date => existingMap[date] = newDataByDate[date])]. *)
Definition merge (existingMap newDataByDate : gmap string DayEntry)
    : gmap string DayEntry :=
  map_fold (λ d day acc, obj_set acc d day) existingMap newDataByDate.

(** [Object.keys(existingMap).sort().map(date => existingMap[date])]. *)
Definition sorted_entries (existingMap : gmap string DayEntry) : list DayEntry :=
  omap (λ d, existingMap !! d) (sorted_keys existingMap).

(** *** Files, console and [main] *)
Inductive StatsFile :=
  | StatsAbsent                    (* stats-history.json does not exist *)
  | StatsCorrupt                   (* it exists; reading it in the [try] throws *)
  | StatsParsed (h : HistoryLog).  (* it exists and holds a history *)

Inductive stream := Log | Warn | Error.

Record Outcome := {
  exit_code : Z;
  console : list (stream * string);
  stats_written : option HistoryLog
}.

Definition empty_history : HistoryLog := {| lastUpdated := None; entries := [] |}.

Definition load_history (f : StatsFile) : HistoryLog * list (stream * string) :=
  match f with
  | StatsAbsent => (empty_history, [])
  | StatsParsed h =>
      (h, [(Log, "[stats] Existing history: " +:+ pretty (length (entries h)) +:+ " days")])
  | StatsCorrupt =>
      (empty_history,
       [(Warn, "[stats] Could not parse existing stats-history.json, starting fresh")])
  end.

(** The closing summary: first and last of a non-empty list. *)
Definition span_line (label : string) (ds : list string) : list (stream * string) :=
  match head ds, last ds with
  | Some lo, Some hi => [(Log, label +:+ lo +:+ " → " +:+ hi)]
  | _, _ => []
  end.

Definition main (MANIFEST_PATH : string) (manifest_file : option (list ReportRecord))
    (stats_file : StatsFile) (now : string) : Outcome :=
  match manifest_file with
  | None =>
      {| exit_code := 1;
         console := [(Error, "[stats] Manifest not found: " +:+ MANIFEST_PATH)];
         stats_written := None |}
  | Some manifest =>
      let '(history, seen) := load_history stats_file in
      let existingMap := index_by_date (entries history) in
      let newDataByDate := aggregate manifest in
      let existingMap := merge existingMap newDataByDate in
      let mergedEntries := sorted_entries existingMap in
      let updatedHistory := {| lastUpdated := Some now; entries := mergedEntries |} in
      {| exit_code := 0;
         console :=
           [(Log, "[stats] Read " +:+ pretty (length manifest) +:+ " entries from manifest.json")]
           ++ seen
           ++ [(Log, "[stats] Updated stats-history.json with "
                       +:+ pretty (length mergedEntries) +:+ " days of history")]
           ++ span_line "[stats] Date range in manifest: " (sorted_keys newDataByDate)
           ++ span_line "[stats] Total history span: " (date <$> mergedEntries);
         stats_written := Some updatedHistory |}
  end.

(** The entries a successful run writes. *)
Definition output_entries (o : Outcome) : list DayEntry :=
  from_option entries [] (stats_written o).

(** *** The script on records as [JSON.parse] delivers them

    Nothing checks that [timestamp], [job] and [environment] are strings.
    Here they are arbitrary JSON values, and the three helpers and the loop
    are the source's, with the calls that can throw written out.  On records
    whose three fields are strings or absent this is the script above
    ([Raw.typed], [raw_main_typed]). *)
Module Raw.

Record RawRecord := {
  timestamp : json;
  environment : json;
  job : json;
  passed : value;
  failed : value
}.

(** [var j = (job || '').toLowerCase();] and the four tests. *)
Definition detectPlatform (job : json) : completion string :=
  j ← call_toLowerCase (or_empty job);
  mret (if includes j "android" then "android"
        else if includes j "ios" then "ios"
        else if includes j "browser" || includes j "desktop" || includes j "responsive"
        then "browser"
        else "other").

(** [var e = (env || '').toLowerCase();] and the five tests. *)
Definition normalizeEnv (env : json) : completion string :=
  e ← call_toLowerCase (or_empty env);
  mret (if includes e "sandbox" then "sandbox"
        else if includes e "staging" then "staging"
        else if includes e "flux" then "flux"
        else if includes e "local" then "local"
        else if decide (e = "") then "unknown" else e).

(** [if (!timestamp) return null;] then [timestamp.match] and its result. *)
Definition extractDate (timestamp : json) : completion (option string) :=
  if truthy timestamp
  then s ← as_string timestamp; mret (match_prefix date_shape s)
  else mret None.

(** The body of [manifest.forEach], statement by statement: an undated record
    returns before [job] and [environment] are looked at. *)
Definition add_report (newDataByDate : gmap string DayEntry) (report : RawRecord)
    : completion (gmap string DayEntry) :=
  date ← extractDate (timestamp report);
  match date with
  | None => mret newDataByDate
  | Some d =>
      platform ← detectPlatform (job report);
      env ← normalizeEnv (environment report);
      let passed := or_zero (parseInt (passed report)) in
      let failed := or_zero (parseInt (failed report)) in
      let day := default (fresh_day d) (newDataByDate !! d) in
      mret (<[d := update_day day platform env passed failed]> newDataByDate)
  end.

(** [manifest.forEach]: an exception thrown for one record ends the loop. *)
Definition aggregate (manifest : list RawRecord) : completion (gmap string DayEntry) :=
  foldl (λ acc report, newDataByDate ← acc; add_report newDataByDate report)
        (mret ∅) manifest.

(** A run either reaches the end of [main] or [process.exit], or dies on the
    uncaught [TypeError]: Node then reports the error and exits with status 1,
    after the lines already printed and before anything is written. *)
Inductive Run :=
  | Exited (o : Outcome)
  | Uncaught (printed : list (stream * string)).

Definition main (MANIFEST_PATH : string) (manifest_file : option (list RawRecord))
    (stats_file : StatsFile) (now : string) : Run :=
  match manifest_file with
  | None =>
      Exited
        {| exit_code := 1;
           console := [(Error, "[stats] Manifest not found: " +:+ MANIFEST_PATH)];
           stats_written := None |}
  | Some manifest =>
      let '(history, seen) := load_history stats_file in
      let read :=
        [(Log, "[stats] Read " +:+ pretty (length manifest) +:+ " entries from manifest.json")]
        ++ seen in
      let existingMap := index_by_date (entries history) in
      match aggregate manifest with
      | TypeError => Uncaught read
      | Normal newDataByDate =>
          let existingMap := merge existingMap newDataByDate in
          let mergedEntries := sorted_entries existingMap in
          let updatedHistory := {| lastUpdated := Some now; entries := mergedEntries |} in
          Exited
            {| exit_code := 0;
               console :=
                 read
                 ++ [(Log, "[stats] Updated stats-history.json with "
                             +:+ pretty (length mergedEntries) +:+ " days of history")]
                 ++ span_line "[stats] Date range in manifest: " (sorted_keys newDataByDate)
                 ++ span_line "[stats] Total history span: " (date <$> mergedEntries);
               stats_written := Some updatedHistory |}
      end
  end.

(** A text field as the typed records hold it: the string, or nothing. *)
Definition text (x : json) : option string :=
  match x with
  | Scalar (VString s) => Some s
  | _ => None
  end.

Definition typed (r : RawRecord) : ReportRecord :=
  {| Report.timestamp := text (timestamp r);
     Report.environment := text (environment r);
     Report.job := text (job r);
     Report.passed := passed r;
     Report.failed := failed r |}.

End Raw.

End StatsHistory.

(** ** fix-stats-from-allure-data.js *)
Module FixStats.

(** [summary.statistic]: each count is a JSON number or is absent. *)
Record Statistic := {
  stat_passed : option Z;
  stat_failed : option Z;
  stat_broken : option Z;
  stat_skipped : option Z;
  stat_unknown : option Z
}.

(** What [widgets/summary.json] holds. *)
Inductive SummaryFile :=
  | SummaryAbsent                                  (* no such file *)
  | SummaryCorrupt                                 (* reading or parsing throws *)
  | SummaryParsed (statistic : option Statistic).  (* parsed; [statistic] may be missing *)

Record Detail := {
  d_passed : Z; d_failed : Z; d_broken : Z; d_skipped : Z; d_unknown : Z
}.

Record Counts := {
  passed : Z;
  failed : Z;
  total : Z;
  detail : Detail
}.

(** *** Read official counts from Allure's widgets/summary.json *)
Definition countFromSummary (summary_file : SummaryFile) : option Counts :=
  match summary_file with
  | SummaryAbsent => None
  | SummaryCorrupt => None
  | SummaryParsed None => None
  | SummaryParsed (Some stat) =>
      let passed := default 0 (stat_passed stat) in
      let failed := default 0 (stat_failed stat) in
      let broken := default 0 (stat_broken stat) in
      let skipped := default 0 (stat_skipped stat) in
      let unknown := default 0 (stat_unknown stat) in
      Some {| passed := passed;
              failed := failed + broken;
              total := passed + failed + broken;
              detail := {| d_passed := passed; d_failed := failed; d_broken := broken;
                           d_skipped := skipped; d_unknown := unknown |} |}
  end.

(** *** Build expected status tag *)
Definition statusTag (passed failed : Z) : string :=
  if 0 <? failed
  then pretty passed +:+ "passed_" +:+ pretty failed +:+ "failed"
  else pretty passed +:+ "passed".

(** The recomputed numbers of one folder in [main]:
    [newPassed], [newFailed], [newTotal]; [None] when the folder is skipped. *)
Definition recount (summary_file : SummaryFile) : option (Z * Z * Z) :=
  match countFromSummary summary_file with
  | None => None
  | Some counts => Some (passed counts, failed counts, total counts)
  end.

End FixStats.

(** ** Vocabulary of the specification

    The aggregator's contract is stated over the records of one day: their
    parsed counts, their tags, and the sums over them. *)
Module Spec.
Import Js StatsHistory.

Definition passed_of (r : ReportRecord) : Z := or_zero (parseInt (Report.passed r)).
Definition failed_of (r : ReportRecord) : Z := or_zero (parseInt (Report.failed r)).
Definition platform_of (r : ReportRecord) : string := detectPlatform (Report.job r).
Definition env_of (r : ReportRecord) : string := normalizeEnv (Report.environment r).

(** The records of [manifest] that map to date [D], in manifest order. *)
Definition records_on (D : string) (manifest : list ReportRecord) : list ReportRecord :=
  filter (λ r, extractDate (Report.timestamp r) = Some D) manifest.

(** The records carrying tag [t] under a classifier. *)
Definition tagged (tag : ReportRecord → string) (t : string) (rs : list ReportRecord)
    : list ReportRecord :=
  filter (λ r, tag r = t) rs.

(** Σ over a list of records. *)
Definition sum_of (f : ReportRecord → Z) (rs : list ReportRecord) : Z :=
  foldr (λ r acc, f r + acc) 0 rs.

(** [runs] = count, [passed] = Σ pi, [failed] = Σ fi. *)
Definition stat_of (rs : list ReportRecord) : DailyStat :=
  {| Stat.runs := Z.of_nat (length rs);
     Stat.passed := sum_of passed_of rs;
     Stat.failed := sum_of failed_of rs |}.

(** A tag has counters only if some record carries it. *)
Definition tag_stat (rs : list ReportRecord) : option DailyStat :=
  match rs with
  | [] => None
  | _ => Some (stat_of rs)
  end.

(** One day's entry, folded from its records alone. *)
Definition day_step (day : DayEntry) (r : ReportRecord) : DayEntry :=
  update_day day (platform_of r) (env_of r) (passed_of r) (failed_of r).

Definition day_of (D : string) (rs : list ReportRecord) : DayEntry :=
  foldl day_step (fresh_day D) rs.

(** One breakdown, folded from the records alone. *)
Definition tally_all (tag : ReportRecord → string) (rs : list ReportRecord)
    : gmap string DailyStat :=
  foldl (λ m r, tally m (tag r) (passed_of r) (failed_of r)) ∅ rs.

(** Every entry of a date-keyed object is filed under its own date. *)
Definition dated (m : gmap string DayEntry) : Prop :=
  ∀ k e, m !! k = Some e → date e = k.

(** Componentwise sum of the counters of a breakdown. *)
Definition stat_plus (a b : DailyStat) : DailyStat :=
  {| Stat.runs := Stat.runs a + Stat.runs b;
     Stat.passed := Stat.passed a + Stat.passed b;
     Stat.failed := Stat.failed a + Stat.failed b |}.

Definition breakdown_sum (m : gmap string DailyStat) : DailyStat :=
  map_fold (λ _ s acc, stat_plus s acc) zero_stat m.

(** [needle] occurs in [s]: some text, then [needle], then some text. *)
Definition contains (s needle : string) : Prop :=
  ∃ before after, s = before +:+ needle +:+ after.

(** The upper-case letters below 256 with their lower-case forms: A-Z, and
    the Latin-1 capitals 192-214 and 216-222. *)
Definition letter_pairs : list (ascii * ascii) :=
  zip (String.list_ascii_of_string "ABCDEFGHIJKLMNOPQRSTUVWXYZ")
      (String.list_ascii_of_string "abcdefghijklmnopqrstuvwxyz")
  ++ ((λ n, (ascii_of_nat n, ascii_of_nat (n + 32))) <$> (seq 192 23 ++ seq 216 7)).

Definition lowered_char (c : ascii) : ascii :=
  from_option snd c (find (λ p, bool_decide (p.1 = c)) letter_pairs).

(** [s] with every upper-case letter replaced by its lower-case form. *)
Definition lowered (s : string) : string :=
  String.string_of_list_ascii (lowered_char <$> String.list_ascii_of_string s).

(** A well-formed [date] key: exactly one match of the date pattern. *)
Definition is_date (D : string) : Prop := match_prefix date_shape D = Some D.

(** Ordered keyword rules: the tag of the first rule whose keyword occurs. *)
Fixpoint first_match (rules : list (string * string)) (otherwise s : string) : string :=
  match rules with
  | [] => otherwise
  | (keyword, tag) :: rules' =>
      if includes s keyword then tag else first_match rules' otherwise s
  end.

Definition platform_rules : list (string * string) :=
  [ ("android", "android"); ("ios", "ios"); ("browser", "browser");
    ("desktop", "browser"); ("responsive", "browser") ].

Definition environment_rules : list (string * string) :=
  [ ("sandbox", "sandbox"); ("staging", "staging"); ("flux", "flux");
    ("local", "local") ].







(** A field holds text or nothing: a string, or one of the values that stand
    for a missing one ([undefined], [null], [false], [0]). *)
Definition textual (x : json) : bool :=
  match x with
  | Scalar (VString _) | Scalar VUndefined | Scalar VNull
  | Scalar (VBool false) | Scalar (VNumber 0) => true
  | _ => false
  end.

(** The records aggregation cannot digest: the timestamp is not textual, or
    the record has a date and its job or its environment is not textual. *)
Definition ill_typed (r : Raw.RawRecord) : bool :=
  negb (textual (Raw.timestamp r))
  || bool_decide (is_Some (extractDate (Raw.text (Raw.timestamp r))))
     && (negb (textual (Raw.job r)) || negb (textual (Raw.environment r))).


End Spec.

(** ** Sample data

    The two-record manifest of the specification's scenario, a record whose
    environment label is a member name of [Object.prototype], and a prior
    history with one day outside the manifest and one day inside it. *)
Module Sample.
Import Js StatsHistory.

Definition report (ts env jb : string) (p f : value) : ReportRecord :=
  {| Report.timestamp := Some ts; Report.environment := Some env;
     Report.job := Some jb; Report.passed := p; Report.failed := f |}.

Definition manifest : list ReportRecord :=
  [ report "2026-02-18_100000" "staging" "android-smoke" (VString "10") (VString "2");
    report "2026-02-18_110000" "sandbox" "ios-e2e" (VString "5") (VString "0") ].

Definition stat (r p f : Z) : DailyStat :=
  {| Stat.runs := r; Stat.passed := p; Stat.failed := f |}.

Definition day_0201 : DayEntry :=
  {| date := "2026-02-01";
     totals := stat 3 20 1;
     platforms := {[ "android" := stat 3 20 1 ]};
     environments := {[ "staging" := stat 3 20 1 ]} |}.

Definition stale_0218 : DayEntry :=
  {| date := "2026-02-18";
     totals := stat 7 70 7;
     platforms := {[ "browser" := stat 7 70 7 ]};
     environments := {[ "flux" := stat 7 70 7 ]} |}.

Definition history : HistoryLog :=
  {| lastUpdated := Some "2026-02-02T06:00:00.000Z";
     entries := [ day_0201; stale_0218 ] |}.

Definition day_0218 : DayEntry :=
  {| date := "2026-02-18";
     totals := stat 2 15 2;
     platforms := {[ "android" := stat 1 10 2; "ios" := stat 1 5 0 ]};
     environments := {[ "staging" := stat 1 10 2; "sandbox" := stat 1 5 0 ]} |}.


Definition constructor_env : ReportRecord :=
  report "2026-02-18_100000" "constructor" "android-smoke" (VNumber 1) (VNumber 0).

Definition raw (ts env jb : json) (p f : value) : Raw.RawRecord :=
  {| Raw.timestamp := ts; Raw.environment := env; Raw.job := jb;
     Raw.passed := p; Raw.failed := f |}.

(** Malformed but digestible: counts that are missing or not numbers, an
    absent job, and two undated records, one with a job that is no text. *)
Definition malformed : list Raw.RawRecord :=
  [ raw (Scalar (VString "2026-02-18_100000")) (Scalar (VString "Staging")) (Scalar VNull)
        (VString "n/a") VUndefined;
    raw (Scalar (VString "yesterday")) (Scalar (VString "staging")) (Scalar (VNumber 7))
        (VString "3") (VString "1");
    raw (Scalar VUndefined) Compound Compound (VNumber 3) (VNumber 1);
    raw (Scalar (VString "2026-02-18_110000")) (Scalar (VBool false)) (Scalar (VString "ios-e2e"))
        (VString "5") (VBool true) ].


Definition numeric_timestamp : Raw.RawRecord :=
  raw (Scalar (VNumber 20260218)) (Scalar (VString "staging")) (Scalar (VString "android-smoke"))
      (VNumber 1) (VNumber 0).

Definition numeric_job : Raw.RawRecord :=
  raw (Scalar (VString "2026-02-18_100000")) (Scalar (VString "staging")) (Scalar (VNumber 42))
      (VNumber 1) (VNumber 0).

End Sample.

(** ** fix-stats-from-allure-data.js: metadata, folder names and [main] *)
Module Reconciler.
Import Js FixStats.

(** *** The line patterns: [^KEY=], the rest of the line captured, [$], flag [m]

    With the [m] flag, [^] matches at the start of the text and after a line
    terminator, [.] matches anything but a line terminator, and [$] matches
    before one and at the end.  Among 8-bit characters the line terminators
    are line feed and carriage return. *)
Definition is_line_terminator (c : ascii) : bool :=
  bool_decide (c = "010"%char) || bool_decide (c = "013"%char).

(** The rest of the current line, and the text from its terminator on. *)
Fixpoint line_rest (s : string) : string * string :=
  match s with
  | EmptyString => (EmptyString, EmptyString)
  | String c s' =>
      if is_line_terminator c then (EmptyString, s)
      else let '(l, r) := line_rest s' in (String c l, r)
  end.

(** [s] without its prefix [key], if it has it. *)
Fixpoint strip_prefix (key s : string) : option string :=
  match key with
  | EmptyString => Some s
  | String k key' =>
      match s with
      | EmptyString => None
      | String c s' => if decide (k = c) then strip_prefix key' s' else None
      end
  end.

(** The capture of the leftmost match of the pattern for [key]; [bol] tells
    whether the scan stands at the beginning of a line. *)
Fixpoint match_line_from (key : string) (bol : bool) (s : string) : option string :=
  match (if bol then strip_prefix key s else None) with
  | Some after => Some (line_rest after).1
  | None =>
      match s with
      | EmptyString => None
      | String c s' => match_line_from key (is_line_terminator c) s'
      end
  end.

Definition match_line (key s : string) : option string := match_line_from key true s.

(** [s.replace(pattern, line)]: the leftmost line that starts with [key]
    becomes [line]; without a match the text is returned as it is. *)
Fixpoint replace_line_from (key line : string) (bol : bool) (s : string) : string :=
  match (if bol then strip_prefix key s else None) with
  | Some after => line +:+ (line_rest after).2
  | None =>
      match s with
      | EmptyString => EmptyString
      | String c s' => String c (replace_line_from key line (is_line_terminator c) s')
      end
  end.

Definition replace_line (key line s : string) : string := replace_line_from key line true s.

(** *** Parse and update .metadata

    The replacement texts are a key and a printed number, so they hold no
    [$] pattern for [replace] to expand. *)
Definition updateMetadata (content : string) (passed failed total : Z) : string :=
  let content := replace_line "TOTAL=" ("TOTAL=" +:+ pretty total) content in
  let content := replace_line "PASSED=" ("PASSED=" +:+ pretty passed) content in
  replace_line "FAILED=" ("FAILED=" +:+ pretty failed) content.

(** The capture of the pattern for [key] in the metadata, or ['?'] when there
    is no match, the capture is empty, or the folder has no [.metadata]. *)
Definition old_value (key : string) (meta : option string) : string :=
  match meta with
  | None => "?"
  | Some content =>
      match match_line key content with
      | None => "?"
      | Some EmptyString => "?"
      | Some v => v
      end
  end.

(** *** Folder names: [folder.split('__')] and [parts.join('__')] *)
Fixpoint split (s : string) : list string :=
  match s with
  | EmptyString => [EmptyString]
  | String "_" (String "_" rest) => EmptyString :: split rest
  | String c s' =>
      match split s' with
      | part :: parts => String c part :: parts
      | [] => [String c EmptyString]
      end
  end.

Fixpoint join (parts : list string) : string :=
  match parts with
  | [] => EmptyString
  | [part] => part
  | part :: parts' => part +:+ "__" +:+ join parts'
  end.

(** The new folder name, when the last part looks like a status tag. *)
Definition renamed (folder newTag : string) : option string :=
  let parts := split folder in
  let lastPart := default EmptyString (last parts) in
  if includes lastPart "passed"
  then Some (join (removelast parts ++ [newTag]))
  else None.

(** *** The reports directory *)
Record ReportDir := {
  summary : SummaryFile;      (* widgets/summary.json *)
  metadata : option string    (* .metadata, if it exists *)
}.

Inductive Entry :=
  | PlainFile
  | Directory (d : ReportDir).

Record Progress := {
  fixedCount : nat;
  skippedCount : nat;
  unchangedCount : nat;
  renames : list (string * string);              (* oldName, newName *)
  reports : gmap string Entry;
  console : list (StatsHistory.stream * string)
}.

Definition log (line : string) : StatsHistory.stream * string := (StatsHistory.Log, line).

Definition nl : string := String "010"%char EmptyString.

(** The body of the loop over the report folders. *)
Definition visit (DRY_RUN : bool) (st : Progress) (folder : string) : Progress :=
  match reports st !! folder with
  | Some (Directory d) =>
      match countFromSummary (summary d) with
      | None =>
          {| fixedCount := fixedCount st;
             skippedCount := S (skippedCount st);
             unchangedCount := unchangedCount st;
             renames := renames st;
             reports := reports st;
             console := console st
               ++ [log ("  SKIP  " +:+ folder +:+ "  (no widgets/summary.json)")] |}
      | Some counts =>
          let oldPassed := old_value "PASSED=" (metadata d) in
          let oldFailed := old_value "FAILED=" (metadata d) in
          let oldTotal := old_value "TOTAL=" (metadata d) in
          let newPassed := passed counts in
          let newFailed := failed counts in
          let newTotal := total counts in
          if bool_decide (oldPassed = pretty newPassed)
             && bool_decide (oldFailed = pretty newFailed)
             && bool_decide (oldTotal = pretty newTotal)
          then
            {| fixedCount := fixedCount st;
               skippedCount := skippedCount st;
               unchangedCount := S (unchangedCount st);
               renames := renames st;
               reports := reports st;
               console := console st |}
          else
            let dt := detail counts in
            let lines :=
              [ log ("  FIX   " +:+ folder);
                log ("        old: " +:+ oldPassed +:+ "p / " +:+ oldFailed +:+ "f / "
                        +:+ oldTotal +:+ "t");
                log ("        new: " +:+ pretty newPassed +:+ "p / " +:+ pretty newFailed
                        +:+ "f / " +:+ pretty newTotal +:+ "t  (allure: "
                        +:+ pretty (d_passed dt) +:+ " passed, "
                        +:+ pretty (d_failed dt) +:+ " failed, "
                        +:+ pretty (d_broken dt) +:+ " broken, "
                        +:+ pretty (d_skipped dt) +:+ " skipped)") ] in
            if DRY_RUN then
              {| fixedCount := S (fixedCount st);
                 skippedCount := skippedCount st;
                 unchangedCount := unchangedCount st;
                 renames := renames st;
                 reports := reports st;
                 console := console st ++ lines |}
            else
              let written :=
                match metadata d with
                | Some content =>
                    <[folder := Directory
                        {| summary := summary d;
                           metadata := Some (updateMetadata content newPassed newFailed newTotal) |}]>
                      (reports st)
                | None => reports st
                end in
              let oldTag := statusTag (or_zero (parseInt_string oldPassed))
                                      (or_zero (parseInt_string oldFailed)) in
              let newTag := statusTag newPassed newFailed in
              let rename :=
                if decide (oldTag = newTag) then None else renamed folder newTag in
              {| fixedCount := S (fixedCount st);
                 skippedCount := skippedCount st;
                 unchangedCount := unchangedCount st;
                 renames := renames st ++ from_option (λ n, [(folder, n)]) [] rename;
                 reports := written;
                 console := console st ++ lines
                   ++ from_option (λ n, [log ("        rename → " +:+ n)]) [] rename |}
      end
  | _ => st
  end.

Definition isDirectory (e : Entry) : bool :=
  match e with
  | Directory _ => true
  | PlainFile => false
  end.

(** The folders of the listing: the directories, sorted. *)
Definition folders_of (listing : gmap string Entry) : list string :=
  sorted_keys (filter (λ kv, isDirectory kv.2) listing).

(** Apply renames: a target that exists is skipped with a warning;
    [None] stands for [renameSync] throwing on a missing source. *)
Fixpoint apply_renames (rs : list (string * string)) (listing : gmap string Entry)
    (out : list (StatsHistory.stream * string))
    : option (gmap string Entry * list (StatsHistory.stream * string)) :=
  match rs with
  | [] => Some (listing, out)
  | (oldName, newName) :: rs' =>
      match listing !! newName with
      | Some _ =>
          apply_renames rs' listing
            (out ++ [log (nl +:+ "  WARN  Cannot rename " +:+ oldName
                            +:+ " → target already exists, skipping rename")])
      | None =>
          match listing !! oldName with
          | Some entry => apply_renames rs' (<[newName := entry]> (delete oldName listing)) out
          | None => None
          end
      end
  end.

Record Outcome := {
  exit_code : Z;
  printed : list (StatsHistory.stream * string);
  listing_after : gmap string Entry;   (* the reports directory before any regeneration *)
  regenerated : bool                   (* generate-manifest.sh was started *)
}.

(** The dry-run banner the script prints before calling [main]. *)
Definition banner (DRY_RUN : bool) : list (StatsHistory.stream * string) :=
  if DRY_RUN then [log ("[fix] *** DRY RUN — no changes will be written ***" +:+ nl)]
  else [].

(** The state of [main] when it enters the loop, and after it. *)
Definition start (DRY_RUN : bool) (listing : gmap string Entry) : Progress :=
  {| fixedCount := 0; skippedCount := 0; unchangedCount := 0; renames := [];
     reports := listing;
     console := banner DRY_RUN
       ++ [log ("[fix] Found " +:+ pretty (length (folders_of listing))
                  +:+ " report folders" +:+ nl)] |}.

Definition loop (DRY_RUN : bool) (listing : gmap string Entry) : Progress :=
  foldl (visit DRY_RUN) (start DRY_RUN listing) (folders_of listing).

(** The script: the banner, then [main].  [reports_dir] is the listing of the
    reports directory, if it exists; [regeneration_error] is the message of
    the error [execSync] throws, if it does.  [None] stands for an uncaught
    exception. *)
Definition main (DRY_RUN : bool) (REPORTS_DIR : string)
    (reports_dir : option (gmap string Entry)) (regeneration_error : option string)
    : option Outcome :=
  match reports_dir with
  | None =>
      Some {| exit_code := 1;
              printed := banner DRY_RUN
                ++ [(StatsHistory.Error, "[fix] Reports dir not found: " +:+ REPORTS_DIR)];
              listing_after := ∅;
              regenerated := false |}
  | Some listing =>
      let st := loop DRY_RUN listing in
      match (if DRY_RUN then Some (reports st, console st)
             else apply_renames (renames st) (reports st) (console st)) with
      | None => None
      | Some (listing', out) =>
          let out :=
            out
            ++ [log (nl +:+ "[fix] Summary: " +:+ pretty (fixedCount st) +:+ " fixed, "
                       +:+ pretty (unchangedCount st) +:+ " unchanged, "
                       +:+ pretty (skippedCount st) +:+ " skipped")]
            ++ (if decide (0 < length (renames st))%nat
                then [log ("[fix] " +:+ pretty (length (renames st)) +:+ " folder(s) renamed")]
                else []) in
          let regenerate := negb DRY_RUN && bool_decide (0 < fixedCount st)%nat in
          let out :=
            if regenerate then
              out ++ [log (nl +:+ "[fix] Regenerating manifest.json...")]
              ++ match regeneration_error with
                 | None => [log "[fix] Done — manifest.json and stats-history.json updated."]
                 | Some message =>
                     [ (StatsHistory.Error,
                        "[fix] Warning: manifest regeneration failed: " +:+ message);
                       (StatsHistory.Error, "[fix] Run manually: sh generate-manifest.sh") ]
                 end
            else out in
          Some {| exit_code := 0;
                  printed := out;
                  listing_after := listing';
                  regenerated := regenerate |}
      end
  end.

End Reconciler.

(** ** Sample report folders *)
Module SampleDirs.
Import FixStats Reconciler.

Definition summary_8_1_2 : SummaryFile :=
  SummaryParsed (Some {| stat_passed := Some 8; stat_failed := Some 1; stat_broken := Some 2;
                         stat_skipped := Some 3; stat_unknown := None |}).

Definition meta_stale : string :=
  "TIMESTAMP=2026-02-18_100000" +:+ nl +:+ "ENVIRONMENT=staging" +:+ nl
  +:+ "TOTAL=10" +:+ nl +:+ "PASSED=10" +:+ nl +:+ "FAILED=0" +:+ nl.

Definition meta_fixed : string :=
  "TIMESTAMP=2026-02-18_100000" +:+ nl +:+ "ENVIRONMENT=staging" +:+ nl
  +:+ "TOTAL=11" +:+ nl +:+ "PASSED=8" +:+ nl +:+ "FAILED=3" +:+ nl.

Definition folder_stale : string := "2026-02-18_100000__android-smoke__staging__main__10passed".
Definition folder_fixed : string := "2026-02-18_100000__android-smoke__staging__main__8passed_3failed".

Definition listing : gmap string Entry :=
  {[ folder_stale := Directory {| summary := summary_8_1_2; metadata := Some meta_stale |};
     "manifest.json" := PlainFile;
     "2026-02-17_090000__ios-e2e__sandbox__main__4passed" :=
       Directory {| summary := SummaryAbsent; metadata := None |} ]}.

End SampleDirs.

(** ** Vocabulary for the reconciler's properties *)
Module ReconcilerSpec.
Import Js FixStats Reconciler.

(** Every character of [s] passes the test [P]. *)
Fixpoint all_chars (P : ascii → bool) (s : string) : bool :=
  match s with
  | EmptyString => true
  | String c s' => P c && all_chars P s'
  end.

(** The characters of a printed integer: digits and the minus sign. *)
Definition numeral_char (c : ascii) : bool :=
  StatsHistory.is_digit c || bool_decide (c = "-"%char).

(** [s] holds no line terminator. *)
Definition one_line (s : string) : bool :=
  all_chars (λ c, negb (is_line_terminator c)) s.

(** [s] is empty or starts with a line terminator. *)
Definition at_line_end (s : string) : bool :=
  match s with
  | EmptyString => true
  | String c _ => is_line_terminator c
  end.

(** Two keys of which neither is a prefix of the other: no line starts with
    both. *)
Definition independent (key1 key2 : string) : Prop :=
  strip_prefix key1 key2 = None ∧ strip_prefix key2 key1 = None.

(** What a run may do to an entry of the reports directory: a plain file stays
    a plain file; a folder keeps its summary, and gains or loses no
    [.metadata]. *)
Definition entry_kept (before after : Entry) : Prop :=
  match before, after with
  | PlainFile, PlainFile => True
  | Directory d, Directory d' =>
      summary d' = summary d ∧ (is_Some (metadata d') ↔ is_Some (metadata d))
  | _, _ => False
  end.

Definition listing_kept (before after : gmap string Entry) : Prop :=
  ∀ n, option_Forall2 entry_kept (before !! n) (after !! n).

(** The text that [join] puts in front of the last part. *)
Definition join_prefix (parts : list string) : string :=
  foldr (λ part acc, part +:+ "__" +:+ acc) EmptyString parts.

(** The sum of the three counters of the loop. *)
Definition visited (st : Progress) : nat :=
  (fixedCount st + skippedCount st + unchangedCount st)%nat.

(** The numbers [.metadata] shows for a folder are the recomputed ones. *)
Definition up_to_date (d : ReportDir) (counts : Counts) : Prop :=
  old_value "PASSED=" (metadata d) = pretty (passed counts) ∧
  old_value "FAILED=" (metadata d) = pretty (failed counts) ∧
  old_value "TOTAL=" (metadata d) = pretty (total counts).

#[global] Instance up_to_date_dec d counts : Decision (up_to_date d counts).
Proof. unfold up_to_date. apply _. Defined.

(** The counts a real run has to write into a folder: its summary is
    readable and its [.metadata] does not show them. *)
Definition to_fix (d : ReportDir) : option Counts :=
  match countFromSummary (summary d) with
  | Some counts => if decide (up_to_date d counts) then None else Some counts
  | None => None
  end.

(** A folder as a real run leaves it: a folder to fix has the three count
    lines of its [.metadata], if it has one, rewritten; any other folder is
    untouched. *)
Definition after_run (d : ReportDir) : ReportDir :=
  match to_fix d with
  | Some counts =>
      {| summary := summary d;
         metadata :=
           (λ content, updateMetadata content (passed counts) (failed counts) (total counts))
             <$> metadata d |}
  | None => d
  end.

(** The name a real run asks for in place of [folder]: none unless the folder
    is to fix and the tag of the numbers in its [.metadata] differs from the
    tag of the recomputed counts. *)
Definition wanted_name (folder : string) (d : ReportDir) : option string :=
  match to_fix d with
  | Some counts =>
      let oldTag := statusTag (or_zero (parseInt_string (old_value "PASSED=" (metadata d))))
                              (or_zero (parseInt_string (old_value "FAILED=" (metadata d)))) in
      let newTag := statusTag (passed counts) (failed counts) in
      if decide (oldTag = newTag) then None else renamed folder newTag
  | None => None
  end.

End ReconcilerSpec.

(** * Properties *)

(** ** Objects as dictionaries *)
Section js_facts.
Import Js.
Context {V : Type}.
Implicit Types (o : gmap string V) (k j : string).

Lemma lookup_obj_set o k v j :
  obj_set o k v !! j =
    if decide (k = "__proto__") then o !! j
    else if decide (k = j) then Some v else o !! j.
Proof.
  unfold obj_set. case_decide; [done|]. by rewrite lookup_insert.
Qed.

Lemma sorted_keys_perm o : sorted_keys o ≡ₚ (map_to_list o).*1.
Proof. apply merge_sort_Permutation. Qed.

Lemma elem_of_sorted_keys o k : k ∈ sorted_keys o ↔ is_Some (o !! k).
Proof.
  rewrite sorted_keys_perm, list_elem_of_fmap. split.
  - intros [[k' v] [-> Hin]]. apply elem_of_map_to_list in Hin. by exists v.
  - intros [v Hv]. exists (k, v). split; [done|]. by apply elem_of_map_to_list.
Qed.

Lemma NoDup_sorted_keys o : NoDup (sorted_keys o).
Proof. rewrite sorted_keys_perm. apply NoDup_fst_map_to_list. Qed.

Lemma sorted_keys_ascending o : StronglySorted String.le (sorted_keys o).
Proof. apply (StronglySorted_merge_sort _). Qed.
End js_facts.

(** ** Merging by date *)
Section merge_facts.
Import Js StatsHistory Spec.
Implicit Types (m : gmap string DayEntry) (es : list DayEntry) (D : string).

Lemma index_by_date_lookup es D :
  index_by_date es !! D =
    if decide (D = "__proto__") then None
    else last (filter (λ e, date e = D) es).
Proof.
  unfold index_by_date. induction es as [|e es IH] using rev_ind.
  - by case_decide.
  - rewrite foldl_app. simpl. rewrite lookup_obj_set, IH, filter_app.
    rewrite filter_cons, filter_nil.
    destruct (decide (D = "__proto__")) as [->|HD].
    + by repeat case_decide.
    + destruct (decide (date e = "__proto__")) as [He|He].
      * rewrite decide_False by congruence. by rewrite app_nil_r.
      * destruct (decide (date e = D)).
        -- by rewrite last_snoc.
        -- by rewrite app_nil_r.
Qed.

Lemma index_by_date_dated es : dated (index_by_date es).
Proof.
  intros k e. rewrite index_by_date_lookup. case_decide; [done|].
  intros Hl. apply last_Some_elem_of in Hl.
  by apply list_elem_of_filter in Hl as [? _].
Qed.

Lemma merge_lookup existingMap newDataByDate D :
  merge existingMap newDataByDate !! D =
    match newDataByDate !! D with
    | Some day => if decide (D = "__proto__") then existingMap !! D else Some day
    | None => existingMap !! D
    end.
Proof.
  unfold merge. revert D.
  apply (map_fold_weak_ind (λ r n, ∀ D, r !! D =
    match n !! D with
    | Some day => if decide (D = "__proto__") then existingMap !! D else Some day
    | None => existingMap !! D
    end)).
  - intros D. by rewrite lookup_empty.
  - intros i x n r Hi IH D. rewrite lookup_obj_set, lookup_insert, IH.
    destruct (decide (i = D)) as [->|Hne].
    + rewrite Hi. by case_decide.
    + by case_decide.
Qed.

Lemma merge_dated existingMap newDataByDate :
  dated existingMap → dated newDataByDate → dated (merge existingMap newDataByDate).
Proof.
  intros H1 H2 k e. rewrite merge_lookup.
  destruct (newDataByDate !! k) as [day|] eqn:Hk; [|by apply H1].
  case_decide; [by apply H1|]. intros [= <-]. by apply H2.
Qed.

Lemma elem_of_sorted_entries m e :
  e ∈ sorted_entries m ↔ ∃ k, m !! k = Some e.
Proof.
  unfold sorted_entries. rewrite list_elem_of_omap. split.
  - intros (k & _ & Hk). eauto.
  - intros [k Hk]. exists k. split; [|done]. apply elem_of_sorted_keys. eauto.
Qed.

Lemma sorted_entries_dates m :
  dated m → date <$> sorted_entries m = sorted_keys m.
Proof.
  intros Hm. unfold sorted_entries.
  assert (Hks : ∀ k, k ∈ sorted_keys m → is_Some (m !! k))
    by (intros k; apply elem_of_sorted_keys).
  induction (sorted_keys m) as [|k ks IH]; [done|]. simpl.
  destruct (Hks k) as [e He]; [left|]. rewrite He. simpl.
  rewrite (Hm _ _ He). f_equal. apply IH. intros k' ?. apply Hks. by right.
Qed.

(** The entries of the sorted list that carry a given date: the one filed
    under it, if any. *)
Lemma sorted_entries_on m D :
  dated m → filter (λ e, date e = D) (sorted_entries m) = option_list (m !! D).
Proof.
  intros Hm. unfold sorted_entries.
  assert (Hin : D ∈ sorted_keys m ↔ is_Some (m !! D)) by apply elem_of_sorted_keys.
  pose proof (NoDup_sorted_keys m) as Hnd.
  induction Hnd as [|k ks Hk Hnd IH].
  - destruct (m !! D) eqn:HD; [|done].
    exfalso. eapply not_elem_of_nil, Hin. eauto.
  - simpl. destruct (m !! k) as [e|] eqn:He; simpl.
    + rewrite filter_cons. destruct (decide (date e = D)) as [Heq|Hne].
      * rewrite (Hm _ _ He) in Heq. subst k. rewrite He. simpl. f_equal.
        clear IH Hin. induction ks as [|k' ks IH]; [done|]. simpl.
        apply not_elem_of_cons in Hk as [Hne Hk]. apply NoDup_cons in Hnd as [_ Hnd].
        destruct (m !! k') as [e'|] eqn:He'; simpl; [|by apply IH].
        rewrite filter_cons, decide_False; [by apply IH|].
        rewrite (Hm _ _ He'). congruence.
      * apply IH. rewrite <- Hin, elem_of_cons. split; [tauto|].
        intros [->|?]; [|done]. by rewrite (Hm _ _ He) in Hne.
    + apply IH. rewrite <- Hin, elem_of_cons. split; [tauto|].
      intros [->|?]; [|done].
      assert (is_Some (m !! k)) as [? ?] by (apply Hin; left). congruence.
Qed.
End merge_facts.

(** ** Aggregating the manifest *)
Section aggregate_facts.
Import Js StatsHistory Spec.
Implicit Types (M rs : list ReportRecord) (r : ReportRecord) (D t : string).

Lemma aggregate_snoc M r : aggregate (M ++ [r]) = add_report (aggregate M) r.
Proof. unfold aggregate. by rewrite foldl_app. Qed.

Lemma day_of_snoc D rs r : day_of D (rs ++ [r]) = day_step (day_of D rs) r.
Proof. unfold day_of. by rewrite foldl_app. Qed.

Lemma records_on_snoc D M r :
  records_on D (M ++ [r]) =
    records_on D M ++
      (if decide (extractDate (Report.timestamp r) = Some D) then [r] else []).
Proof. unfold records_on. by rewrite filter_app, filter_cons, filter_nil. Qed.

(** The fold over the whole manifest files under [D] exactly what the fold
    over the records of [D] alone produces. *)
Lemma aggregate_lookup M D :
  aggregate M !! D =
    match records_on D M with
    | [] => None
    | rs => Some (day_of D rs)
    end.
Proof.
  induction M as [|r M IH] using rev_ind; [done|].
  rewrite aggregate_snoc, records_on_snoc. unfold add_report.
  destruct (extractDate (Report.timestamp r)) as [d|] eqn:Hd.
  - destruct (decide (d = D)) as [->|Hne].
    + rewrite decide_True by done. rewrite lookup_insert_eq, IH.
      destruct (records_on D M) as [|r0 rs]; [done|].
      transitivity (Some (day_of D ((r0 :: rs) ++ [r]))); [|done].
      by rewrite day_of_snoc.
    + rewrite decide_False by congruence.
      rewrite lookup_insert_ne by done. by rewrite app_nil_r.
  - rewrite decide_False by done. by rewrite app_nil_r.
Qed.

Lemma day_of_date D rs : date (day_of D rs) = D.
Proof.
  induction rs as [|r rs IH] using rev_ind; [done|]. by rewrite day_of_snoc.
Qed.

Lemma aggregate_dated M : dated (aggregate M).
Proof.
  intros k e. rewrite aggregate_lookup.
  destruct (records_on k M); [done|]. intros [= <-]. apply day_of_date.
Qed.

Lemma sum_of_snoc f rs r : sum_of f (rs ++ [r]) = sum_of f rs + f r.
Proof. unfold sum_of. induction rs as [|x rs IH]; simpl; lia. Qed.

Lemma stat_of_snoc rs r :
  stat_of (rs ++ [r]) = add_run (stat_of rs) (passed_of r) (failed_of r).
Proof.
  unfold stat_of, add_run. simpl. rewrite !sum_of_snoc, length_app. simpl.
  f_equal. lia.
Qed.

Lemma day_of_totals D rs : totals (day_of D rs) = stat_of rs.
Proof.
  induction rs as [|r rs IH] using rev_ind; [done|].
  rewrite day_of_snoc, stat_of_snoc, <- IH. done.
Qed.

Lemma day_of_platforms D rs : platforms (day_of D rs) = tally_all platform_of rs.
Proof.
  unfold tally_all. induction rs as [|r rs IH] using rev_ind; [done|].
  rewrite day_of_snoc, foldl_app, <- IH. done.
Qed.

Lemma day_of_environments D rs : environments (day_of D rs) = tally_all env_of rs.
Proof.
  unfold tally_all. induction rs as [|r rs IH] using rev_ind; [done|].
  rewrite day_of_snoc, foldl_app, <- IH. done.
Qed.

Lemma tally_lookup (m : gmap string DailyStat) tag p f t :
  tally m tag p f !! t =
    if decide (tag = t) then
      match m !! tag with
      | Some s => Some (add_run s p f)
      | None => if inherited tag then None else Some (add_run zero_stat p f)
      end
    else m !! t.
Proof.
  unfold tally. destruct (m !! tag) as [s|] eqn:Hm.
  - by rewrite lookup_insert.
  - destruct (inherited tag).
    + case_decide; by subst.
    + by rewrite lookup_insert.
Qed.

(** What a breakdown holds for a tag: nothing for a name that resolves on
    the prototype chain, otherwise the counters of the records tagged so. *)
Lemma tally_all_lookup (tag : ReportRecord → string) rs t :
  tally_all tag rs !! t =
    if inherited t then None else tag_stat (tagged tag t rs).
Proof.
  unfold tally_all, tagged. induction rs as [|r rs IH] using rev_ind.
  - simpl. by destruct (inherited t).
  - rewrite foldl_app. simpl. rewrite tally_lookup, filter_app, filter_cons, filter_nil.
    destruct (decide (tag r = t)) as [->|Hne].
    + rewrite IH. destruct (inherited t); [done|].
      unfold tag_stat at 2.
      destruct (filter _ rs ++ [r]) eqn:E; [by destruct (filter _ rs)|].
      rewrite <- E, stat_of_snoc. by destruct (filter _ rs).
    + by rewrite app_nil_r.
Qed.
End aggregate_facts.

(** ** Classifiers and date keys *)
Section classifier_facts.
Import Js StatsHistory Spec.

Lemma detectPlatform_own job : inherited (detectPlatform job) = false.
Proof. unfold detectPlatform. by repeat case_match. Qed.

Lemma match_prefix_fixed shape s d :
  match_prefix shape s = Some d → match_prefix shape d = Some d.
Proof.
  revert s d. induction shape as [|p shape IH]; intros s d; simpl.
  - by intros [= <-].
  - destruct s as [|c s]; [done|]. destruct (p c) eqn:Hp; [|done].
    destruct (match_prefix shape s) as [d'|] eqn:Hd; [|done].
    intros [= <-]. simpl. by rewrite Hp, (IH _ _ Hd).
Qed.

Lemma extractDate_is_date timestamp D : extractDate timestamp = Some D → is_date D.
Proof.
  unfold extractDate, is_date. destruct timestamp as [[|c s]|]; [done| |done].
  apply match_prefix_fixed.
Qed.

(** A date key starts with a digit, so it names no member of
    [Object.prototype]. *)
Lemma is_date_own D : is_date D → inherited D = false.
Proof.
  unfold is_date, inherited. intros HD. apply bool_decide_eq_false. intros Hin.
  destruct D as [|c D]; [done|]. simpl in HD.
  destruct (is_digit c) eqn:Hc; [|done].
  unfold inherited_names in Hin.
  repeat (apply elem_of_cons in Hin as [[= -> _]|Hin]; [done|]).
  by apply elem_of_nil in Hin.
Qed.

Lemma is_date_not_proto D : is_date D → D ≠ "__proto__".
Proof. intros HD ->. by apply is_date_own in HD. Qed.

Lemma extractDate_own_key timestamp D :
  extractDate timestamp = Some D → inherited D = false.
Proof. intros. eapply is_date_own, extractDate_is_date. done. Qed.
End classifier_facts.

(** ** The merged history *)
Section history_facts.
Import Js StatsHistory Spec.
Implicit Types (M : list ReportRecord) (H : HistoryLog) (D : string) (e : DayEntry).

(** What a successful run writes, in terms of the two date-keyed objects. *)
Lemma main_entries MANIFEST_PATH M f now :
  output_entries (main MANIFEST_PATH (Some M) f now) =
    sorted_entries (merge (index_by_date (entries (load_history f).1)) (aggregate M)).
Proof. unfold main, output_entries. by destruct f. Qed.

Lemma merged_dated es M : dated (merge (index_by_date es) (aggregate M)).
Proof. apply merge_dated; [apply index_by_date_dated|apply aggregate_dated]. Qed.

Lemma aggregate_key_is_date M D : is_Some (aggregate M !! D) → is_date D.
Proof.
  rewrite aggregate_lookup. destruct (records_on D M) as [|r rs] eqn:E.
  - by intros [? ?].
  - intros _. assert (r ∈ records_on D M) as Hr by (rewrite E; left).
    apply list_elem_of_filter in Hr as [Hr _]. by eapply extractDate_is_date.
Qed.

(** The entry of the merged object under [D]: the fresh one if the manifest
    has records for [D], else the last prior entry dated [D]. *)
Lemma merged_lookup es M D :
  merge (index_by_date es) (aggregate M) !! D =
    match records_on D M with
    | [] => if decide (D = "__proto__") then None
            else last (filter (λ e, date e = D) es)
    | rs => Some (day_of D rs)
    end.
Proof.
  rewrite merge_lookup, index_by_date_lookup.
  pose proof (aggregate_key_is_date M D) as Hkey.
  rewrite aggregate_lookup in *. destruct (records_on D M) as [|r rs]; [done|].
  rewrite decide_False; [done|]. apply is_date_not_proto, Hkey. eauto.
Qed.

Lemma no_record_on D M :
  Forall (λ r, extractDate (Report.timestamp r) ≠ Some D) M → records_on D M = [].
Proof.
  unfold records_on. induction 1 as [|r M Hr _ IH]; [done|].
  by rewrite filter_cons, decide_False.
Qed.

Lemma some_record_on D M r :
  r ∈ M → extractDate (Report.timestamp r) = Some D → records_on D M ≠ [].
Proof.
  intros Hr HD Hnil. assert (r ∈ records_on D M) as Hin
    by (by apply list_elem_of_filter).
  rewrite Hnil in Hin. by apply elem_of_nil in Hin.
Qed.

Lemma unique_date_filter es e :
  NoDup (date <$> es) → e ∈ es → filter (λ x, date x = date e) es = [e].
Proof.
  induction es as [|x es IH]; [by intros _ ?%elem_of_nil|].
  rewrite fmap_cons, NoDup_cons, elem_of_cons, filter_cons.
  intros [Hx Hnd] [->|Hin].
  - rewrite decide_True by done. f_equal.
    clear IH Hnd. induction es as [|y es IH]; [done|].
    rewrite fmap_cons, not_elem_of_cons in Hx. destruct Hx as [Hne Hx].
    rewrite filter_cons, decide_False by congruence. by apply IH.
  - rewrite decide_False; [by apply IH|].
    intros Heq. apply Hx. rewrite Heq. by apply list_elem_of_fmap_2.
Qed.

(** The prior entry that survives for a date the manifest no longer covers:
    the last one filed under it. *)
Lemma kept_entry MANIFEST_PATH M H now D e :
  D ≠ "__proto__" →
  last (filter (λ x, date x = D) (entries H)) = Some e →
  records_on D M = [] →
  filter (λ x, date x = D)
    (output_entries (main MANIFEST_PATH (Some M) (StatsParsed H) now)) = [e].
Proof.
  intros HD He HM. rewrite main_entries, sorted_entries_on by apply merged_dated.
  simpl. by rewrite merged_lookup, HM, decide_False, He.
Qed.

(** Re-indexing the written entries gives back the merged object. *)
Lemma index_sorted_entries (m : gmap string DayEntry) :
  dated m → m !! "__proto__" = None → index_by_date (sorted_entries m) = m.
Proof.
  intros Hm Hp. apply map_eq. intros k.
  rewrite index_by_date_lookup, sorted_entries_on by done.
  case_decide; [by subst|]. by destruct (m !! k).
Qed.

Lemma merged_no_proto es M :
  merge (index_by_date es) (aggregate M) !! "__proto__" = None.
Proof.
  rewrite merged_lookup. destruct (records_on "__proto__" M) as [|r rs] eqn:E; [done|].
  assert (r ∈ records_on "__proto__" M) as Hr by (rewrite E; left).
  apply list_elem_of_filter in Hr as [Hr _].
  by apply extractDate_own_key in Hr.
Qed.

Lemma merge_again (m : gmap string DayEntry) es M :
  m = merge (index_by_date es) (aggregate M) → merge m (aggregate M) = m.
Proof.
  intros ->. apply map_eq. intros k.
  rewrite merge_lookup. rewrite (merge_lookup _ _ k).
  by destruct (aggregate M !! k), (decide (k = "__proto__")).
Qed.
End history_facts.

(** ** Parsing counts *)
Section parse_facts.
Import Js StatsHistory Spec.






End parse_facts.

(** ** Breakdowns against totals *)
Section breakdown_facts.
Import Js StatsHistory Spec.
Implicit Types (m : gmap string DailyStat) (rs : list ReportRecord).

Lemma stat_plus_swap (a b c : DailyStat) :
  stat_plus a (stat_plus b c) = stat_plus b (stat_plus a c).
Proof. unfold stat_plus. simpl. f_equal; lia. Qed.

Lemma breakdown_sum_insert m k s :
  m !! k = None → breakdown_sum (<[k := s]> m) = stat_plus s (breakdown_sum m).
Proof.
  intros Hk. unfold breakdown_sum. apply map_fold_insert_L; [|done].
  intros. apply stat_plus_swap.
Qed.

Lemma breakdown_sum_lookup m k s :
  m !! k = Some s → breakdown_sum m = stat_plus s (breakdown_sum (delete k m)).
Proof.
  intros Hk. unfold breakdown_sum.
  apply (map_fold_delete_L (λ _ x acc, stat_plus x acc) zero_stat k s m); [|done].
  intros. apply stat_plus_swap.
Qed.

Lemma breakdown_sum_tally m tag p f :
  inherited tag = false →
  breakdown_sum (tally m tag p f) = add_run (breakdown_sum m) p f.
Proof.
  intros Htag. unfold tally. rewrite Htag. destruct (m !! tag) as [s|] eqn:Hm.
  - rewrite <- insert_delete_eq, breakdown_sum_insert by apply lookup_delete_eq.
    rewrite (breakdown_sum_lookup m tag s) by done.
    unfold add_run, stat_plus. simpl. f_equal; lia.
  - rewrite breakdown_sum_insert by done.
    unfold add_run, stat_plus. simpl. f_equal; lia.
Qed.

Lemma tally_all_sum (tag : ReportRecord → string) rs :
  Forall (λ r, inherited (tag r) = false) rs →
  breakdown_sum (tally_all tag rs) = stat_of rs.
Proof.
  unfold tally_all. induction rs as [|r rs IH] using rev_ind; intros Hrs; [done|].
  rewrite Forall_app, Forall_singleton in Hrs. destruct Hrs as [Hrs Hr].
  rewrite foldl_app. simpl. rewrite breakdown_sum_tally, stat_of_snoc, IH; done.
Qed.

(** The platform breakdown of a fresh entry always adds up to its totals. *)
Lemma platforms_sum_totals D rs :
  breakdown_sum (platforms (day_of D rs)) = totals (day_of D rs).
Proof.
  rewrite day_of_platforms, day_of_totals. apply tally_all_sum.
  apply Forall_forall. intros r _. apply detectPlatform_own.
Qed.

(** So does the environment breakdown, as long as no environment tag of the
    day names a member of [Object.prototype]. *)
Lemma environments_sum_totals D rs :
  Forall (λ r, inherited (env_of r) = false) rs →
  breakdown_sum (environments (day_of D rs)) = totals (day_of D rs).
Proof.
  intros Hrs. rewrite day_of_environments, day_of_totals. by apply tally_all_sum.
Qed.
End breakdown_facts.

(** ** The scenarios of the specification *)
Section scenarios.
Import Js StatsHistory Spec.

Example platform_android : detectPlatform (Some "android-smoke-01") = "android".
Proof. reflexivity. Qed.

Example platform_ios : detectPlatform (Some "ios-regression") = "ios".
Proof. reflexivity. Qed.

Example platform_browser : detectPlatform (Some "browser-desktop-ci") = "browser".
Proof. reflexivity. Qed.

Example platform_other : detectPlatform (Some "unit-tests") = "other".
Proof. reflexivity. Qed.

Example environment_staging : normalizeEnv (Some "Staging-EU") = "staging".
Proof. reflexivity. Qed.

Example environment_unknown : normalizeEnv (Some "") = "unknown".
Proof. reflexivity. Qed.

Example environment_free_text : normalizeEnv (Some "Preprod") = "preprod".
Proof. reflexivity. Qed.

Example extractDate_prefix : extractDate (Some "2026-02-18_143000") = Some "2026-02-18".
Proof. reflexivity. Qed.

Example extractDate_no_prefix : extractDate (Some "18-02-2026") = None.
Proof. reflexivity. Qed.

Example parseInt_plain : parseInt (VString "10") = Some 10.
Proof. reflexivity. Qed.

Example parseInt_trailing_text : parseInt (VString "12abc") = Some 12.
Proof. reflexivity. Qed.

Example parseInt_hex : parseInt (VString "  -0x1f") = Some (-31).
Proof. reflexivity. Qed.

Example parseInt_text : parseInt (VString "n/a") = None.
Proof. reflexivity. Qed.

(** Two records of one day, no prior history: one entry with the summed
    totals and the per-tag breakdowns. *)
Example scenario_fresh :
  main "reports/manifest.json" (Some Sample.manifest) StatsAbsent "2026-02-19T06:00:00.000Z" =
    {| exit_code := 0;
       console :=
         [ (Log, "[stats] Read 2 entries from manifest.json");
           (Log, "[stats] Updated stats-history.json with 1 days of history");
           (Log, "[stats] Date range in manifest: 2026-02-18 → 2026-02-18");
           (Log, "[stats] Total history span: 2026-02-18 → 2026-02-18") ];
       stats_written :=
         Some {| lastUpdated := Some "2026-02-19T06:00:00.000Z";
                 entries := [Sample.day_0218] |} |}.
Proof. vm_compute. reflexivity. Qed.

(** A prior day outside the manifest is retained verbatim, a prior day inside
    it is replaced. *)
Example scenario_merge :
  output_entries
    (main "reports/manifest.json" (Some Sample.manifest) (StatsParsed Sample.history)
       "2026-02-19T06:00:00.000Z")
  = [Sample.day_0201; Sample.day_0218].
Proof. vm_compute. reflexivity. Qed.

Example scenario_no_manifest :
  main "reports/manifest.json" None (StatsParsed Sample.history) "2026-02-19T06:00:00.000Z" =
    {| exit_code := 1;
       console := [(Error, "[stats] Manifest not found: reports/manifest.json")];
       stats_written := None |}.
Proof. reflexivity. Qed.


(** Outside ASCII: a no-break space in front of a count, and a Latin-1
    capital in an environment label. *)
Example no_break_space_count :
  parseInt (VString (String (ascii_of_nat 160) "12")) = Some 12.
Proof. reflexivity. Qed.

Example latin1_environment :
  normalizeEnv (Some ("PR" +:+ String (ascii_of_nat 201) "PROD"))
  = "pr" +:+ String (ascii_of_nat 233) "prod".
Proof. reflexivity. Qed.

End scenarios.

(** ** Lower case and containment *)
Section containment_facts.
Import Js StatsHistory Spec.

Lemma lower_char_lowered c : lower_char c = lowered_char c.
Proof. destruct c as [[] [] [] [] [] [] [] []]; vm_compute; reflexivity. Qed.

Lemma toLowerCase_lowered s : toLowerCase s = lowered s.
Proof.
  unfold lowered. induction s as [|c s IH]; simpl; [done|].
  by rewrite lower_char_lowered, IH.
Qed.

Lemma prefix_spec needle s :
  String.prefix needle s = true ↔ ∃ after, s = needle +:+ after.
Proof.
  revert s. induction needle as [|a needle IH]; intros s.
  - split; [intros _; by exists s|]. by destruct s.
  - destruct s as [|b s]; simpl.
    + split; [done|]. by intros [after ?].
    + destruct (ascii_dec a b) as [->|Hne].
      * rewrite IH. split; intros [after Hs]; exists after.
        -- by rewrite Hs.
        -- by injection Hs.
      * split; [done|]. intros [after Hs]. by injection Hs.
Qed.

Lemma includes_unfold s needle :
  includes s needle =
    String.prefix needle s ||
    match s with
    | EmptyString => false
    | String _ s' => includes s' needle
    end.
Proof. by destruct s. Qed.

(** [includes] decides containment. *)
Lemma includes_contains s needle : includes s needle = true ↔ contains s needle.
Proof.
  split.
  - induction s as [|c s IH]; rewrite includes_unfold, orb_true_iff.
    + intros [[after ->]%prefix_spec|?]; [|done]. by exists "", after.
    + intros [[after ->]%prefix_spec|Hs]; [by exists "", after|].
      destruct (IH Hs) as (before & after & ->). by exists (String c before), after.
  - intros (before & after & ->). induction before as [|c before IH].
    + rewrite includes_unfold, orb_true_iff. left. apply prefix_spec. by exists after.
    + change (String c before +:+ needle +:+ after)
        with (String c (before +:+ needle +:+ after)).
      rewrite includes_unfold, IH. apply orb_true_r.
Qed.

Lemma includes_not_contains s needle : includes s needle = false ↔ ¬ contains s needle.
Proof. rewrite <- includes_contains. by destruct (includes s needle). Qed.
End containment_facts.

(** Turn what is known about containment into the values of [includes]. *)
Ltac read_containment :=
  repeat match goal with
    | H : _ ∨ _ |- _ => destruct H
    | H : Spec.contains _ _ |- _ => apply includes_contains in H; rewrite H
    | H : ¬ Spec.contains _ _ |- _ => apply includes_not_contains in H; rewrite H
    end.

(** ** Records with fields that are no text *)
Section raw_facts.
Import Js StatsHistory Spec.

Lemma raw_extractDate x :
  textual x = true → Raw.extractDate x = Normal (extractDate (Raw.text x)).
Proof.
  destruct x as [[| |[]|n|s]|]; try done.
  - by destruct n.
  - by destruct s.
Qed.

Lemma raw_extractDate_throws x : textual x = false → Raw.extractDate x = TypeError.
Proof.
  destruct x as [[| |[]|n|s]|]; try done. by destruct n.
Qed.

Lemma or_empty_text x :
  textual x = true → as_string (or_empty x) = Normal (default "" (Raw.text x)).
Proof.
  destruct x as [[| |[]|n|s]|]; try done.
  - by destruct n.
  - by destruct s.
Qed.

Lemma or_empty_throws x : textual x = false → as_string (or_empty x) = TypeError.
Proof.
  destruct x as [[| |[]|n|s]|]; try done. by destruct n.
Qed.

Lemma raw_detectPlatform x :
  textual x = true → Raw.detectPlatform x = Normal (detectPlatform (Raw.text x)).
Proof.
  intros Hx. unfold Raw.detectPlatform, call_toLowerCase. by rewrite or_empty_text.
Qed.

Lemma raw_detectPlatform_throws x : textual x = false → Raw.detectPlatform x = TypeError.
Proof.
  intros Hx. unfold Raw.detectPlatform, call_toLowerCase. by rewrite or_empty_throws.
Qed.

Lemma raw_normalizeEnv x :
  textual x = true → Raw.normalizeEnv x = Normal (normalizeEnv (Raw.text x)).
Proof.
  intros Hx. unfold Raw.normalizeEnv, call_toLowerCase. by rewrite or_empty_text.
Qed.

Lemma raw_normalizeEnv_throws x : textual x = false → Raw.normalizeEnv x = TypeError.
Proof.
  intros Hx. unfold Raw.normalizeEnv, call_toLowerCase. by rewrite or_empty_throws.
Qed.

Lemma raw_add_report m r :
  ill_typed r = false → Raw.add_report m r = Normal (add_report m (Raw.typed r)).
Proof.
  unfold ill_typed. rewrite orb_false_iff, negb_false_iff. intros [Hts Hrest].
  unfold Raw.add_report, add_report. rewrite raw_extractDate by done. simpl.
  destruct (extractDate (Raw.text (Raw.timestamp r))) as [d|] eqn:Hd; [|done].
  rewrite bool_decide_eq_true_2 in Hrest by done. simpl in Hrest.
  rewrite orb_false_iff, !negb_false_iff in Hrest. destruct Hrest as [Hjob Henv].
  by rewrite raw_detectPlatform, raw_normalizeEnv.
Qed.

Lemma raw_add_report_throws m r : ill_typed r = true → Raw.add_report m r = TypeError.
Proof.
  unfold ill_typed, Raw.add_report.
  destruct (textual (Raw.timestamp r)) eqn:Hts; simpl.
  - rewrite raw_extractDate by done. simpl.
    destruct (extractDate (Raw.text (Raw.timestamp r))) as [d|] eqn:Hd.
    + rewrite bool_decide_eq_true_2 by done. simpl.
      destruct (textual (Raw.job r)) eqn:Hjob; simpl.
      * rewrite negb_true_iff. intros Henv.
        by rewrite raw_detectPlatform, raw_normalizeEnv_throws.
      * intros _. by rewrite raw_detectPlatform_throws.
    + rewrite bool_decide_eq_false_2; [done|]. by intros [? ?].
  - intros _. by rewrite raw_extractDate_throws.
Qed.

Lemma raw_fold_thrown (l : list Raw.RawRecord) :
  foldl (λ acc report, newDataByDate ← acc; Raw.add_report newDataByDate report)
        TypeError l = TypeError.
Proof. by induction l. Qed.

Lemma raw_fold_typed m (l : list Raw.RawRecord) :
  Forall (λ r, ill_typed r = false) l →
  foldl (λ acc report, newDataByDate ← acc; Raw.add_report newDataByDate report)
        (Normal m) l
  = Normal (foldl add_report m (Raw.typed <$> l)).
Proof.
  intros Hl. revert m. induction Hl as [|r l Hr _ IH]; intros m; [done|].
  simpl. rewrite raw_add_report by done. apply IH.
Qed.

Lemma raw_fold_throws m (l : list Raw.RawRecord) :
  Exists (λ r, ill_typed r = true) l →
  foldl (λ acc report, newDataByDate ← acc; Raw.add_report newDataByDate report)
        (Normal m) l
  = TypeError.
Proof.
  intros Hl. revert m. induction Hl as [r l Hr|r l _ IH]; intros m; simpl.
  - rewrite raw_add_report_throws by done. apply raw_fold_thrown.
  - destruct (Raw.add_report m r); [apply IH|apply raw_fold_thrown].
Qed.

Lemma raw_aggregate_typed (l : list Raw.RawRecord) :
  Forall (λ r, ill_typed r = false) l →
  Raw.aggregate l = Normal (aggregate (Raw.typed <$> l)).
Proof. apply raw_fold_typed. Qed.

Lemma raw_aggregate_throws (l : list Raw.RawRecord) :
  Exists (λ r, ill_typed r = true) l → Raw.aggregate l = TypeError.
Proof. apply raw_fold_throws. Qed.

(** On a manifest without ill-typed records the run is the run on the typed
    records, to the last printed line. *)
Lemma raw_main_typed MANIFEST_PATH (l : list Raw.RawRecord) f now :
  Forall (λ r, ill_typed r = false) l →
  Raw.main MANIFEST_PATH (Some l) f now
  = Raw.Exited (main MANIFEST_PATH (Some (Raw.typed <$> l)) f now).
Proof.
  intros Hl. unfold Raw.main, main. rewrite raw_aggregate_typed by done.
  rewrite length_fmap. destruct (load_history f) as [history seen].
  by rewrite <- !(assoc_L (++)).
Qed.

Lemma raw_main_absent MANIFEST_PATH f now :
  Raw.main MANIFEST_PATH None f now = Raw.Exited (main MANIFEST_PATH None f now).
Proof. done. Qed.

(** With an ill-typed record the run dies before anything is written, having
    printed what it read. *)
Lemma raw_main_throws MANIFEST_PATH (l : list Raw.RawRecord) f now :
  Exists (λ r, ill_typed r = true) l →
  Raw.main MANIFEST_PATH (Some l) f now
  = Raw.Uncaught
      ([(Log, "[stats] Read " +:+ pretty (length l) +:+ " entries from manifest.json")]
       ++ (load_history f).2).
Proof.
  intros Hl. unfold Raw.main. rewrite raw_aggregate_throws by done.
  by destruct (load_history f).
Qed.

(** The timestamp [20260218], a number: [timestamp.match] is not a
    function. *)
Example numeric_timestamp_throws :
  Raw.extractDate (Scalar (VNumber 20260218)) = TypeError ∧
  Raw.aggregate [Sample.numeric_timestamp] = TypeError ∧
  Raw.main "reports/manifest.json" (Some [Sample.numeric_timestamp]) StatsAbsent
           "2026-02-19T06:00:00.000Z"
  = Raw.Uncaught [(Log, "[stats] Read 1 entries from manifest.json")].
Proof. split_and!; reflexivity. Qed.

(** A job that is a number throws in a dated record, and goes unnoticed in an
    undated one. *)
Example numeric_job_throws :
  Raw.aggregate [Sample.numeric_job] = TypeError ∧
  Raw.aggregate [Sample.raw (Scalar (VString "yesterday")) (Scalar (VString "staging"))
                   (Scalar (VNumber 42)) (VNumber 1) (VNumber 0)] = Normal ∅.
Proof. split; reflexivity. Qed.

End raw_facts.

(** ** Claims about the aggregator *)
Section aggregator_claims.
Import Js StatsHistory Spec.
Implicit Types (M : list ReportRecord) (H : HistoryLog) (D : string) (e : DayEntry).

(** C1 (preservation).  For a date [D] of the prior history to which no
    record of the current manifest maps, the written history holds exactly one
    entry dated [D], and it is the prior entry itself, unchanged in every
    field.  The prior history is taken as the data model has it: [D] has the
    shape of a date and no two entries share a date ([kept_entry] says which
    entry stays otherwise). *)
Theorem preservation MANIFEST_PATH M H now D e :
  is_date D →
  NoDup (date <$> entries H) →
  e ∈ entries H →
  date e = D →
  Forall (λ r, extractDate (Report.timestamp r) ≠ Some D) M →
  filter (λ x, date x = D)
    (output_entries (main MANIFEST_PATH (Some M) (StatsParsed H) now)) = [e].
Proof.
  intros HD Hnd He <- HM. apply kept_entry.
  - by apply is_date_not_proto.
  - by rewrite unique_date_filter.
  - by apply no_record_on.
Qed.

Lemma preservation_witness :
  filter (λ x, date x = "2026-02-01")
    (output_entries (main "reports/manifest.json" (Some Sample.manifest)
                       (StatsParsed Sample.history) "2026-02-19T06:00:00.000Z"))
  = [Sample.day_0201].
Proof.
  apply (preservation "reports/manifest.json" Sample.manifest Sample.history
           "2026-02-19T06:00:00.000Z" "2026-02-01" Sample.day_0201).
  - reflexivity.
  - apply (bool_decide_unpack _). vm_compute. exact I.
  - left.
  - reflexivity.
  - repeat constructor; vm_compute; discriminate.
Defined.

(** C2 (overwrite, not merge).  For a date [D] to which at least one record of
    the current manifest maps, whatever the prior history [H] holds for [D],
    the written history holds exactly one entry dated [D]: the entry computed
    from the manifest's records for [D] alone. *)
Theorem overwrite_not_merge MANIFEST_PATH M H now D r :
  r ∈ M →
  extractDate (Report.timestamp r) = Some D →
  aggregate M !! D = Some (day_of D (records_on D M)) ∧
  filter (λ x, date x = D)
    (output_entries (main MANIFEST_PATH (Some M) (StatsParsed H) now))
  = [day_of D (records_on D M)].
Proof.
  intros Hr HD. pose proof (some_record_on D M r Hr HD) as Hne.
  rewrite main_entries, sorted_entries_on by apply merged_dated.
  simpl. rewrite merged_lookup, aggregate_lookup.
  by destruct (records_on D M).
Qed.

Lemma overwrite_not_merge_witness :
  filter (λ x, date x = "2026-02-18")
    (output_entries (main "reports/manifest.json" (Some Sample.manifest)
                       (StatsParsed Sample.history) "2026-02-19T06:00:00.000Z"))
  = [Sample.day_0218].
Proof.
  refine (proj2 (overwrite_not_merge "reports/manifest.json" Sample.manifest
                   Sample.history "2026-02-19T06:00:00.000Z" "2026-02-18"
                   (Sample.report "2026-02-18_100000" "staging" "android-smoke"
                      (VString "10") (VString "2")) _ _)).
  - left.
  - reflexivity.
Defined.

(** C3 (sum correctness).  For a date [D] with manifest records [rs], the
    fresh entry filed under [D] has [totals.runs] = the number of records,
    [totals.passed] = Σ pi and [totals.failed] = Σ fi over their parsed
    counts; and every platform tag within [platforms], and every environment
    tag within [environments], carries the same three sums restricted to the
    records of [D] with that tag. *)
Theorem sum_correctness M D :
  let rs := records_on D M in
  rs ≠ [] →
  ∃ day,
    aggregate M !! D = Some day ∧
    Stat.runs (totals day) = Z.of_nat (length rs) ∧
    Stat.passed (totals day) = sum_of passed_of rs ∧
    Stat.failed (totals day) = sum_of failed_of rs ∧
    (∀ t s, platforms day !! t = Some s →
       Stat.runs s = Z.of_nat (length (tagged platform_of t rs)) ∧
       Stat.passed s = sum_of passed_of (tagged platform_of t rs) ∧
       Stat.failed s = sum_of failed_of (tagged platform_of t rs)) ∧
    (∀ t s, environments day !! t = Some s →
       Stat.runs s = Z.of_nat (length (tagged env_of t rs)) ∧
       Stat.passed s = sum_of passed_of (tagged env_of t rs) ∧
       Stat.failed s = sum_of failed_of (tagged env_of t rs)).
Proof.
  intros rs Hrs. exists (day_of D rs). split.
  { rewrite aggregate_lookup. fold rs. by destruct rs. }
  rewrite day_of_totals, day_of_platforms, day_of_environments.
  split_and!; try done.
  - intros t s. rewrite tally_all_lookup. destruct (inherited t); [done|].
    destruct (tagged platform_of t rs); [done|]. by intros [= <-].
  - intros t s. rewrite tally_all_lookup. destruct (inherited t); [done|].
    destruct (tagged env_of t rs); [done|]. by intros [= <-].
Qed.

Lemma sum_correctness_witness :
  ∃ day,
    aggregate Sample.manifest !! "2026-02-18" = Some day ∧
    Stat.runs (totals day) = 2 ∧
    Stat.passed (totals day) = 15 ∧
    Stat.failed (totals day) = 2 ∧
    platforms day !! "android" = Some (Sample.stat 1 10 2) ∧
    environments day !! "sandbox" = Some (Sample.stat 1 5 0).
Proof.
  destruct (sum_correctness Sample.manifest "2026-02-18") as (day & Hday & Hr & Hp & Hf & _).
  - discriminate.
  - exists day. split; [exact Hday|]. split; [exact Hr|]. split; [exact Hp|].
    split; [exact Hf|]. vm_compute in Hday. injection Hday as <-. split; reflexivity.
Defined.

(** C4 (classification).  With [j] the lower-cased job and [e] the
    lower-cased environment (a missing field counts as the empty text), the
    platform tag is decided by the first rule that applies: [j] contains
    "android": android; else contains "ios": ios; else contains "browser",
    "desktop" or "responsive": browser; else other.  The environment tag: [e]
    contains "sandbox": sandbox; else "staging": staging; else "flux": flux;
    else "local": local; else [e] itself if it is not empty, else unknown.
    Lower-casing and containment are [lowered] and [contains], defined apart
    from the code's [toLowerCase] and [includes].  Both tags also equal the
    first match of the ordered rule tables. *)
Theorem classification (r : ReportRecord) :
  let j := lowered (default "" (Report.job r)) in
  let e := lowered (default "" (Report.environment r)) in
  (contains j "android" → platform_of r = "android") ∧
  (¬ contains j "android" → contains j "ios" → platform_of r = "ios") ∧
  (¬ contains j "android" → ¬ contains j "ios" →
     contains j "browser" ∨ contains j "desktop" ∨ contains j "responsive" →
     platform_of r = "browser") ∧
  (¬ contains j "android" → ¬ contains j "ios" → ¬ contains j "browser" →
     ¬ contains j "desktop" → ¬ contains j "responsive" →
     platform_of r = "other") ∧
  (contains e "sandbox" → env_of r = "sandbox") ∧
  (¬ contains e "sandbox" → contains e "staging" → env_of r = "staging") ∧
  (¬ contains e "sandbox" → ¬ contains e "staging" → contains e "flux" →
     env_of r = "flux") ∧
  (¬ contains e "sandbox" → ¬ contains e "staging" → ¬ contains e "flux" →
     contains e "local" → env_of r = "local") ∧
  (¬ contains e "sandbox" → ¬ contains e "staging" → ¬ contains e "flux" →
     ¬ contains e "local" → e ≠ "" → env_of r = e) ∧
  (¬ contains e "sandbox" → ¬ contains e "staging" → ¬ contains e "flux" →
     ¬ contains e "local" → e = "" → env_of r = "unknown") ∧
  platform_of r = first_match platform_rules "other" j ∧
  env_of r = first_match environment_rules (if decide (e = "") then "unknown" else e) e.
Proof.
  intros j e. unfold platform_of, env_of, detectPlatform, normalizeEnv.
  rewrite !toLowerCase_lowered. fold j e.
  split_and!; intros; read_containment; rewrite ?orb_true_r; simpl;
    try done; by repeat case_match.
Qed.

Lemma classification_witness :
  platform_of (Sample.report "2026-02-18_100000" "Staging-EU" "Browser-DESKTOP-ci"
                 (Js.VNumber 1) (Js.VNumber 0)) = "browser" ∧
  env_of (Sample.report "2026-02-18_100000" "Staging-EU" "Browser-DESKTOP-ci"
            (Js.VNumber 1) (Js.VNumber 0)) = "staging".
Proof.
  destruct (classification
              (Sample.report "2026-02-18_100000" "Staging-EU" "Browser-DESKTOP-ci"
                 (Js.VNumber 1) (Js.VNumber 0)))
    as (_ & _ & Hbrowser & _ & _ & Hstaging & _).
  split.
  - apply Hbrowser.
    + intros H%includes_contains. vm_compute in H. discriminate.
    + intros H%includes_contains. vm_compute in H. discriminate.
    + left. exists "", "-desktop-ci". reflexivity.
  - apply Hstaging.
    + intros H%includes_contains. vm_compute in H. discriminate.
    + exists "", "-eu". reflexivity.
Defined.

(** C5 (idempotence).  Two runs on the same manifest and the same history file
    write the same entries and differ only in [lastUpdated]; and a run on the
    same manifest with the first run's output as prior history writes that
    entries list again. *)
Theorem idempotence MANIFEST_PATH M f now1 now2 :
  let first := output_entries (main MANIFEST_PATH (Some M) f now1) in
  stats_written (main MANIFEST_PATH (Some M) f now1)
    = Some {| lastUpdated := Some now1; entries := first |} ∧
  stats_written (main MANIFEST_PATH (Some M) f now2)
    = Some {| lastUpdated := Some now2; entries := first |} ∧
  stats_written
    (main MANIFEST_PATH (Some M)
       (StatsParsed {| lastUpdated := Some now1; entries := first |}) now2)
    = Some {| lastUpdated := Some now2; entries := first |}.
Proof.
  intros first. split_and!.
  - unfold first, main, output_entries. by destruct f.
  - unfold first, main, output_entries. by destruct f.
  - unfold first. rewrite main_entries. unfold main. simpl. do 2 f_equal.
    rewrite index_sorted_entries by (apply merged_dated || apply merged_no_proto).
    by rewrite (merge_again _ (entries (load_history f).1) M).
Qed.

(** C6 (output structure).  Whatever the manifest and the prior history, the
    dates of the written entries are in ascending string order and pairwise
    distinct. *)
Theorem output_sorted_unique MANIFEST_PATH manifest_file f now :
  let dates := date <$> output_entries (main MANIFEST_PATH manifest_file f now) in
  StronglySorted String.le dates ∧ NoDup dates.
Proof.
  intros dates. subst dates. destruct manifest_file as [M|].
  - rewrite main_entries, sorted_entries_dates by apply merged_dated.
    split; [apply sorted_keys_ascending|apply NoDup_sorted_keys].
  - split; constructor.
Qed.

(** C7 (corrupt-history recovery).  When the history file exists but cannot be
    parsed, the run still exits with status 0, writes exactly what it writes
    when the file is absent, and its console differs from that run's only by
    the warning, printed after the first line. *)
Theorem corrupt_history_recovery MANIFEST_PATH M now :
  let corrupt := main MANIFEST_PATH (Some M) StatsCorrupt now in
  let absent := main MANIFEST_PATH (Some M) StatsAbsent now in
  exit_code corrupt = 0 ∧
  exit_code absent = 0 ∧
  stats_written corrupt = stats_written absent ∧
  is_Some (stats_written corrupt) ∧
  console corrupt =
    take 1 (console absent)
    ++ [(Warn, "[stats] Could not parse existing stats-history.json, starting fresh")]
    ++ drop 1 (console absent).
Proof. simpl. split_and!; eauto. Qed.




(** C10 (cross-breakdown consistency) at the record whose environment label is
    "constructor": the day counts one run, the platform breakdown adds up to
    the totals, and the environment breakdown is empty and adds up to zero. *)
Theorem constructor_environment_untallied :
  ∃ day,
    aggregate [Sample.constructor_env] !! "2026-02-18" = Some day ∧
    totals day = Sample.stat 1 1 0 ∧
    breakdown_sum (platforms day) = Sample.stat 1 1 0 ∧
    environments day = ∅ ∧
    breakdown_sum (environments day) = Sample.stat 0 0 0.
Proof.
  exists (day_of "2026-02-18" [Sample.constructor_env]).
  split_and!; by vm_compute.
Qed.

End aggregator_claims.

(** ** Claims about the reconciler *)
Section reconciler_claims.
Import FixStats.

(** C9 (reconciler counting).  From a readable summary with the five
    per-status counts, the recomputed numbers are: passed as reported, failed
    as failed + broken, total as passed + failed + broken. *)
Theorem reconciler_counting (p f b s u : Z) :
  let stat := {| stat_passed := Some p; stat_failed := Some f; stat_broken := Some b;
                 stat_skipped := Some s; stat_unknown := Some u |} in
  ∃ counts,
    countFromSummary (SummaryParsed (Some stat)) = Some counts ∧
    passed counts = p ∧
    failed counts = f + b ∧
    total counts = p + f + b ∧
    recount (SummaryParsed (Some stat)) = Some (p, f + b, p + f + b).
Proof. simpl. eexists. split_and!; reflexivity. Qed.

End reconciler_claims.

(** * Further properties of the aggregator *)

(** ** Where written entries come from *)
Section provenance_facts.
Import Js StatsHistory Spec.
Implicit Types (M : list ReportRecord) (H : HistoryLog) (D : string) (e : DayEntry).

Lemma records_on_nonempty D M :
  records_on D M ≠ [] ↔ ∃ r, r ∈ M ∧ extractDate (Report.timestamp r) = Some D.
Proof.
  split.
  - destruct (records_on D M) as [|r rs] eqn:E; [done|]. intros _.
    assert (r ∈ records_on D M) as Hr by (rewrite E; left).
    apply list_elem_of_filter in Hr as [? ?]. eauto.
  - intros (r & Hr & HD). by eapply some_record_on.
Qed.

Lemma dated_filter_nonempty es D :
  filter (λ e, date e = D) es ≠ [] ↔ D ∈ date <$> es.
Proof.
  rewrite list_elem_of_fmap. split.
  - destruct (filter _ es) as [|e l] eqn:E; [done|]. intros _.
    assert (e ∈ filter (λ e, date e = D) es) as He by (rewrite E; left).
    apply list_elem_of_filter in He as [? ?]. eauto.
  - intros (e & -> & He) Hnil.
    assert (e ∈ filter (λ x, date x = date e) es) as Hin
      by (by apply list_elem_of_filter).
    rewrite Hnil in Hin. by apply elem_of_nil in Hin.
Qed.

Lemma aggregate_undated M :
  Forall (λ r, extractDate (Report.timestamp r) = None) M → aggregate M = ∅.
Proof.
  intros HM. apply map_eq. intros D. rewrite aggregate_lookup, lookup_empty.
  destruct (records_on D M) as [|r rs] eqn:E; [done|].
  assert (r ∈ records_on D M) as Hr by (rewrite E; left).
  apply list_elem_of_filter in Hr as [HD Hr].
  rewrite Forall_forall in HM. rewrite (HM r Hr) in HD. done.
Qed.

(** Entries filed under their own dates are determined by their dates. *)
Lemma dated_entries_eq (m : gmap string DayEntry) (l1 l2 : list DayEntry) :
  (∀ e, e ∈ l1 → m !! date e = Some e) →
  (∀ e, e ∈ l2 → m !! date e = Some e) →
  date <$> l1 = date <$> l2 → l1 = l2.
Proof.
  revert l2. induction l1 as [|x l1 IH]; intros [|y l2] H1 H2 Hd; try done.
  injection Hd as Hxy Hd. f_equal.
  - assert (m !! date x = Some x) as Hx by (apply H1; left).
    assert (m !! date y = Some y) as Hy by (apply H2; left).
    rewrite Hxy in Hx. congruence.
  - apply IH; [intros; apply H1; by right|intros; apply H2; by right|done].
Qed.

Lemma sorted_entries_filed (m : gmap string DayEntry) e :
  dated m → e ∈ sorted_entries m → m !! date e = Some e.
Proof.
  intros Hm [k Hk]%elem_of_sorted_entries. by rewrite (Hm _ _ Hk).
Qed.

(** A list of entries that is already sorted by date, without duplicate or
    [__proto__] dates, comes back unchanged from indexing and sorting. *)
Lemma sorted_entries_index es :
  StronglySorted String.le (date <$> es) →
  NoDup (date <$> es) →
  "__proto__" ∉ date <$> es →
  sorted_entries (index_by_date es) = es.
Proof.
  intros Hs Hnd Hp.
  assert (Hfiled : ∀ e, e ∈ es → index_by_date es !! date e = Some e).
  { intros e He. rewrite index_by_date_lookup, decide_False.
    - by rewrite unique_date_filter.
    - intros Heq. apply Hp. rewrite <- Heq. by apply list_elem_of_fmap_2. }
  apply (dated_entries_eq (index_by_date es)); [|done|].
  { intros e. apply sorted_entries_filed, index_by_date_dated. }
  rewrite sorted_entries_dates by apply index_by_date_dated.
  apply (StronglySorted_unique String.le); [apply sorted_keys_ascending|done|].
  apply NoDup_Permutation; [apply NoDup_sorted_keys|done|].
  intros D. rewrite elem_of_sorted_keys, index_by_date_lookup.
  destruct (decide (D = "__proto__")) as [->|HD].
  { split; [by intros [? ?]|done]. }
  by rewrite last_is_Some, dated_filter_nonempty.
Qed.

Lemma merge_empty (m : gmap string DayEntry) : merge m ∅ = m.
Proof. apply map_eq. intros k. by rewrite merge_lookup, lookup_empty. Qed.
End provenance_facts.

(** ** Order of the inputs *)
Section order_facts.
Import Js StatsHistory Spec.
Implicit Types (M rs : list ReportRecord) (D t : string).

Lemma sum_of_perm f rs rs' : rs ≡ₚ rs' → sum_of f rs = sum_of f rs'.
Proof.
  unfold sum_of. induction 1 as [|x l l' _ IH|x y l|l l' l'' _ IH1 _ IH2]; simpl; lia.
Qed.

Lemma stat_of_perm rs rs' : rs ≡ₚ rs' → stat_of rs = stat_of rs'.
Proof.
  intros Hp. unfold stat_of.
  by rewrite (sum_of_perm passed_of _ _ Hp), (sum_of_perm failed_of _ _ Hp),
    (Permutation_length Hp).
Qed.

Lemma tag_stat_perm rs rs' : rs ≡ₚ rs' → tag_stat rs = tag_stat rs'.
Proof.
  intros Hp. destruct rs as [|r rs], rs' as [|r' rs']; simpl.
  - done.
  - by apply Permutation_nil_cons in Hp.
  - symmetry in Hp. by apply Permutation_nil_cons in Hp.
  - f_equal. by apply stat_of_perm.
Qed.

Lemma tally_all_perm (tag : ReportRecord → string) rs rs' :
  rs ≡ₚ rs' → tally_all tag rs = tally_all tag rs'.
Proof.
  intros Hp. apply map_eq. intros t. rewrite !tally_all_lookup.
  destruct (inherited t); [done|]. apply tag_stat_perm. unfold tagged. by rewrite Hp.
Qed.

Lemma day_entry_eq (a b : DayEntry) :
  date a = date b → totals a = totals b → platforms a = platforms b →
  environments a = environments b → a = b.
Proof. destruct a, b. simpl. by intros -> -> -> ->. Qed.

Lemma day_of_perm D rs rs' : rs ≡ₚ rs' → day_of D rs = day_of D rs'.
Proof.
  intros Hp. apply day_entry_eq.
  - by rewrite !day_of_date.
  - rewrite !day_of_totals. by apply stat_of_perm.
  - rewrite !day_of_platforms. by apply tally_all_perm.
  - rewrite !day_of_environments. by apply tally_all_perm.
Qed.

Lemma aggregate_perm M M' : M ≡ₚ M' → aggregate M = aggregate M'.
Proof.
  intros Hp. apply map_eq. intros D. rewrite !aggregate_lookup.
  assert (records_on D M ≡ₚ records_on D M') as Hr by (unfold records_on; by rewrite Hp).
  destruct (records_on D M) as [|r rs], (records_on D M') as [|r' rs'].
  - done.
  - by apply Permutation_nil_cons in Hr.
  - symmetry in Hr. by apply Permutation_nil_cons in Hr.
  - f_equal. by apply day_of_perm.
Qed.

Lemma index_by_date_perm (es es' : list DayEntry) :
  es ≡ₚ es' → NoDup (date <$> es) → index_by_date es = index_by_date es'.
Proof.
  intros Hp Hnd. apply map_eq. intros D. rewrite !index_by_date_lookup.
  case_decide; [done|].
  assert (NoDup (date <$> es')) as Hnd' by (by rewrite <- Hp).
  destruct (decide (D ∈ date <$> es)) as [Hin|Hout].
  - apply list_elem_of_fmap in Hin as (e & -> & He).
    rewrite (unique_date_filter es e), (unique_date_filter es' e); try done.
    by rewrite <- Hp.
  - assert (filter (λ e, date e = D) es = []) as ->.
    { destruct (decide (filter (λ e, date e = D) es = [])) as [|Hne]; [done|].
      by apply dated_filter_nonempty in Hne. }
    assert (filter (λ e, date e = D) es' = []) as ->; [|done].
    destruct (decide (filter (λ e, date e = D) es' = [])) as [|Hne]; [done|].
    apply dated_filter_nonempty in Hne. by rewrite <- Hp in Hne.
Qed.
End order_facts.

(** ** Classifier outputs *)
Section classifier_output_facts.
Import Js StatsHistory Spec.



Lemma detectPlatform_range job :
  detectPlatform job ∈ ["android"; "ios"; "browser"; "other"].
Proof. unfold detectPlatform. repeat case_match; set_solver. Qed.

Lemma normalizeEnv_nonempty env : normalizeEnv env ≠ "".
Proof. unfold normalizeEnv. by repeat case_match. Qed.


End classifier_output_facts.

(** ** Properties of a run *)
Section aggregator_extras.
Import Js StatsHistory Spec.
Implicit Types (M : list ReportRecord) (H : HistoryLog) (D : string) (e : DayEntry).

(** X1.  The dates of the written history are exactly the dates some manifest
    record maps to, together with the dates of the prior entries other than
    [__proto__]: a run never drops a date and never invents one. *)
Theorem written_dates MANIFEST_PATH M H now D :
  D ∈ date <$> output_entries (main MANIFEST_PATH (Some M) (StatsParsed H) now) ↔
    (∃ r, r ∈ M ∧ extractDate (Report.timestamp r) = Some D) ∨
    (D ≠ "__proto__" ∧ D ∈ date <$> entries H).
Proof.
  rewrite main_entries, sorted_entries_dates by apply merged_dated. simpl.
  rewrite elem_of_sorted_keys, merged_lookup, <- records_on_nonempty.
  destruct (records_on D M) as [|r rs].
  - destruct (decide (D = "__proto__")) as [->|HD].
    + split; [by intros [? ?]|]. by intros [?|[? _]].
    + rewrite last_is_Some, dated_filter_nonempty. split; [by right|].
      by intros [?|[_ ?]].
  - split; [by left|eauto].
Qed.

(** X2.  Every written entry is either the entry folded from the manifest's
    records for its date, or, when the manifest has no record for that date, an
    entry of the prior history, taken over as it is. *)
Theorem written_entry_origin MANIFEST_PATH M H now e :
  e ∈ output_entries (main MANIFEST_PATH (Some M) (StatsParsed H) now) →
  (records_on (date e) M ≠ [] ∧ e = day_of (date e) (records_on (date e) M)) ∨
  (records_on (date e) M = [] ∧ e ∈ entries H).
Proof.
  rewrite main_entries. simpl. intros He.
  apply sorted_entries_filed in He; [|apply merged_dated].
  rewrite merged_lookup in He. destruct (records_on (date e) M) as [|r rs].
  - right. split; [done|]. case_decide; [done|].
    apply last_Some_elem_of, list_elem_of_filter in He. tauto.
  - left. split; [done|]. congruence.
Qed.

Lemma written_entry_origin_witness :
  (records_on "2026-02-01" Sample.manifest ≠ [] ∧
   Sample.day_0201 = day_of "2026-02-01" (records_on "2026-02-01" Sample.manifest)) ∨
  (records_on "2026-02-01" Sample.manifest = [] ∧ Sample.day_0201 ∈ entries Sample.history).
Proof.
  apply (written_entry_origin "reports/manifest.json" Sample.manifest Sample.history
           "2026-02-19T06:00:00.000Z" Sample.day_0201).
  vm_compute. left.
Defined.

(** X3.  When no record of the manifest has a date, a prior history that is
    already in order (dates ascending, pairwise distinct, none of them
    [__proto__]) is written back entry for entry. *)
Theorem undated_manifest_keeps_history MANIFEST_PATH M H now :
  Forall (λ r, extractDate (Report.timestamp r) = None) M →
  StronglySorted String.le (date <$> entries H) →
  NoDup (date <$> entries H) →
  "__proto__" ∉ date <$> entries H →
  output_entries (main MANIFEST_PATH (Some M) (StatsParsed H) now) = entries H.
Proof.
  intros HM Hs Hnd Hp. rewrite main_entries. simpl.
  rewrite (aggregate_undated M HM), merge_empty. by apply sorted_entries_index.
Qed.

Lemma undated_manifest_keeps_history_witness :
  output_entries
    (main "reports/manifest.json"
       (Some [Sample.report "latest" "staging" "android-smoke" (VNumber 4) (VNumber 1)])
       (StatsParsed Sample.history) "2026-02-19T06:00:00.000Z")
  = entries Sample.history.
Proof.
  apply undated_manifest_keeps_history.
  - repeat constructor.
  - apply (bool_decide_unpack _). vm_compute. exact I.
  - apply (bool_decide_unpack _). vm_compute. exact I.
  - apply (bool_decide_unpack _). vm_compute. exact I.
Defined.

(** X4.  The written entries do not depend on the order of the manifest's
    records, nor on the order of the prior entries when their dates are
    pairwise distinct.  (Entries are compared as values: the order of the keys
    inside a breakdown is not part of the model.) *)
Theorem input_order_irrelevant MANIFEST_PATH M M' H H' now :
  M ≡ₚ M' →
  entries H ≡ₚ entries H' →
  NoDup (date <$> entries H) →
  output_entries (main MANIFEST_PATH (Some M) (StatsParsed H) now) =
  output_entries (main MANIFEST_PATH (Some M') (StatsParsed H') now).
Proof.
  intros HM HH Hnd. rewrite !main_entries. simpl.
  by rewrite (aggregate_perm M M' HM), (index_by_date_perm _ _ HH Hnd).
Qed.

Lemma input_order_irrelevant_witness :
  output_entries
    (main "reports/manifest.json" (Some Sample.manifest) (StatsParsed Sample.history)
       "2026-02-19T06:00:00.000Z") =
  output_entries
    (main "reports/manifest.json" (Some (reverse Sample.manifest))
       (StatsParsed {| lastUpdated := None; entries := reverse (entries Sample.history) |})
       "2026-02-19T06:00:00.000Z").
Proof.
  apply input_order_irrelevant.
  - apply Permutation_swap.
  - apply Permutation_swap.
  - apply (bool_decide_unpack _). vm_compute. exact I.
Defined.

(** X5.  In an entry folded from the manifest, the platform keys are among
    android, ios, browser and other; no environment key is empty or names a
    member of [Object.prototype]; and every breakdown entry counts at least
    one run and at most the day's runs. *)
Theorem breakdown_keys M D day :
  aggregate M !! D = Some day →
  (∀ t s, platforms day !! t = Some s →
     t ∈ ["android"; "ios"; "browser"; "other"] ∧
     1 ≤ Stat.runs s ≤ Stat.runs (totals day)) ∧
  (∀ t s, environments day !! t = Some s →
     t ≠ "" ∧ inherited t = false ∧
     1 ≤ Stat.runs s ≤ Stat.runs (totals day)).
Proof.
  rewrite aggregate_lookup. destruct (records_on D M) as [|r0 rs0] eqn:E; [done|].
  rewrite <- E. clear E r0 rs0. intros [= <-].
  rewrite day_of_totals, day_of_platforms, day_of_environments.
  assert (Hruns : ∀ (tag : ReportRecord → string) t s,
    tally_all tag (records_on D M) !! t = Some s →
    inherited t = false ∧
    (∃ r, tag r = t) ∧
    1 ≤ Stat.runs s ≤ Stat.runs (stat_of (records_on D M))).
  { intros tag t s. rewrite tally_all_lookup. destruct (inherited t); [done|].
    destruct (tagged tag t (records_on D M)) as [|r rs] eqn:E; [done|].
    intros [= <-]. split; [done|]. split.
    - exists r. assert (r ∈ tagged tag t (records_on D M)) as Hr by (rewrite E; left).
      by apply list_elem_of_filter in Hr as [? _].
    - rewrite <- E. simpl. pose proof (length_filter (λ r, tag r = t) (records_on D M)).
      unfold tagged in *. rewrite E in *. simpl in *. lia. }
  split; intros t s Hs; destruct (Hruns _ _ _ Hs) as (Hi & [r Hr] & Hb).
  - split; [|done]. rewrite <- Hr. apply detectPlatform_range.
  - split; [|done]. rewrite <- Hr. apply normalizeEnv_nonempty.
Qed.

Lemma breakdown_keys_witness :
  (∀ t s, platforms Sample.day_0218 !! t = Some s →
     t ∈ ["android"; "ios"; "browser"; "other"] ∧
     1 ≤ Stat.runs s ≤ Stat.runs (totals Sample.day_0218)) ∧
  (∀ t s, environments Sample.day_0218 !! t = Some s →
     t ≠ "" ∧ inherited t = false ∧
     1 ≤ Stat.runs s ≤ Stat.runs (totals Sample.day_0218)).
Proof.
  apply (breakdown_keys Sample.manifest "2026-02-18" Sample.day_0218).
  vm_compute. reflexivity.
Defined.



(** X19.  The script on records as they are parsed against the script on
    typed records.  On a manifest without ill-typed records the run exits as
    the run on the typed records does: same status, same console, same
    written history.  With an ill-typed record the run dies on the uncaught
    [TypeError] after the lines that report what was read, and writes
    nothing.  Without a manifest both exit alike. *)
Theorem run_on_parsed_records MANIFEST_PATH (raw : list Raw.RawRecord) f now :
  (Forall (λ r, ill_typed r = false) raw →
     Raw.main MANIFEST_PATH (Some raw) f now
     = Raw.Exited (main MANIFEST_PATH (Some (Raw.typed <$> raw)) f now)) ∧
  (Exists (λ r, ill_typed r = true) raw →
     Raw.main MANIFEST_PATH (Some raw) f now
     = Raw.Uncaught
         ([(Log, "[stats] Read " +:+ pretty (length raw) +:+ " entries from manifest.json")]
          ++ (load_history f).2)) ∧
  Raw.main MANIFEST_PATH None f now = Raw.Exited (main MANIFEST_PATH None f now).
Proof.
  split_and!; [apply raw_main_typed|apply raw_main_throws|apply raw_main_absent].
Qed.

Lemma run_on_parsed_records_witness :
  Raw.main "reports/manifest.json" (Some Sample.malformed) StatsCorrupt
           "2026-02-19T06:00:00.000Z"
  = Raw.Exited (main "reports/manifest.json" (Some (Raw.typed <$> Sample.malformed))
                     StatsCorrupt "2026-02-19T06:00:00.000Z") ∧
  Raw.main "reports/manifest.json" (Some [Sample.numeric_job]) StatsCorrupt
           "2026-02-19T06:00:00.000Z"
  = Raw.Uncaught
      [(Log, "[stats] Read 1 entries from manifest.json");
       (Warn, "[stats] Could not parse existing stats-history.json, starting fresh")].
Proof.
  split.
  - apply (run_on_parsed_records "reports/manifest.json" Sample.malformed StatsCorrupt
             "2026-02-19T06:00:00.000Z").
    repeat constructor.
  - apply (run_on_parsed_records "reports/manifest.json" [Sample.numeric_job] StatsCorrupt
             "2026-02-19T06:00:00.000Z").
    left. reflexivity.
Defined.

End aggregator_extras.

(** * Properties of the reconciler *)

(** ** Lines and keys *)
Section line_facts.
Import Js FixStats Reconciler ReconcilerSpec.
Implicit Types (key line s v r : string) (bol : bool).

Lemma string_app_assoc (x y z : string) : (x +:+ y) +:+ z = x +:+ (y +:+ z).
Proof.
  induction x as [|c x IH]; [done|].
  change (String c ((x +:+ y) +:+ z) = String c (x +:+ (y +:+ z))). by rewrite IH.
Qed.

Lemma strip_prefix_app key x : strip_prefix key (key +:+ x) = Some x.
Proof. induction key as [|k key IH]; simpl; [done|]. by rewrite decide_True. Qed.

Lemma strip_prefix_Some key s after :
  strip_prefix key s = Some after → s = key +:+ after.
Proof.
  revert s. induction key as [|k key IH]; intros s; simpl.
  - by intros [= ->].
  - destruct s as [|c s]; [done|]. case_decide; [|done]. subst.
    intros Hs. by rewrite (IH _ Hs).
Qed.

Lemma independent_app key1 key2 x :
  independent key1 key2 → strip_prefix key2 (key1 +:+ x) = None.
Proof.
  intros [H12 H21]. revert key1 H12 H21.
  induction key2 as [|a key2 IH]; intros [|b key1]; simpl; try done.
  repeat case_decide; subst; try done; eauto.
Qed.

Lemma independent_sym key1 key2 : independent key1 key2 → independent key2 key1.
Proof. by intros [? ?]. Qed.

Lemma independent_nonempty key1 key2 : independent key1 key2 → key1 ≠ "".
Proof. by intros [? ?] ->. Qed.

Lemma one_line_app x y : one_line (x +:+ y) = one_line x && one_line y.
Proof.
  unfold one_line. induction x as [|c x IH]; simpl; [done|].
  by rewrite IH, andb_assoc.
Qed.

Lemma line_rest_app v r :
  one_line v → at_line_end r → line_rest (v +:+ r) = (v, r).
Proof.
  intros Hv Hr. induction v as [|c v IH]; simpl.
  - change ("" +:+ r) with r.
    destruct r as [|c r]; [done|]. simpl in *. by destruct (is_line_terminator c).
  - unfold one_line in Hv. simpl in Hv. apply andb_True in Hv as [Hc Hv].
    destruct (is_line_terminator c); [done|]. by rewrite IH.
Qed.

Lemma line_rest_spec s :
  s = (line_rest s).1 +:+ (line_rest s).2 ∧
  one_line (line_rest s).1 ∧ at_line_end (line_rest s).2.
Proof.
  induction s as [|c s IH]; simpl; [done|].
  destruct (is_line_terminator c) eqn:Hc; simpl.
  - by rewrite Hc.
  - destruct (line_rest s) as [l r]. simpl in *. destruct IH as (-> & Hl & Hr).
    unfold one_line in *. simpl. rewrite Hc. simpl. done.
Qed.

(** Replacing from the middle of a line leaves that line as it is: what
    stripping a one-line prefix gives, and the rest of the line. *)
Lemma strip_prefix_replace key line k s :
  one_line k →
  strip_prefix k (replace_line_from key line false s) =
    replace_line_from key line false <$> strip_prefix k s.
Proof.
  revert s. induction k as [|a k IH]; intros s Hk; simpl; [done|].
  unfold one_line in Hk. simpl in Hk. apply andb_True in Hk as [Ha Hk].
  destruct s as [|c s]; simpl; [done|].
  case_decide; [|done]. subst.
  destruct (is_line_terminator c); [done|]. by apply IH.
Qed.

Lemma line_rest_replace key line s :
  (line_rest (replace_line_from key line false s)).1 = (line_rest s).1.
Proof.
  induction s as [|c s IH]; simpl; [done|].
  destruct (is_line_terminator c) eqn:Hc; simpl; [done|].
  destruct (line_rest s) as [l r], (line_rest (replace_line_from _ _ _ s)) as [l' r'].
  simpl in *. by rewrite IH.
Qed.

Lemma match_line_skip key x r :
  one_line x → match_line_from key false (x +:+ r) = match_line_from key false r.
Proof.
  intros Hx. induction x as [|c x IH]; simpl; [done|].
  unfold one_line in Hx. simpl in Hx. apply andb_True in Hx as [Hc Hx].
  destruct (is_line_terminator c); [done|]. by apply IH.
Qed.

Lemma terminator_not_in_key key c s :
  one_line key → key ≠ "" → is_line_terminator c = true →
  strip_prefix key (String c s) = None.
Proof.
  intros Hk Hne Hc. destruct key as [|a key]; [done|]. simpl.
  case_decide; [|done]. subst. unfold one_line in Hk. simpl in Hk.
  by rewrite Hc in Hk.
Qed.
End line_facts.

(** ** Reading a key back after a replacement *)
Section replace_facts.
Import Js FixStats Reconciler ReconcilerSpec.
Implicit Types (key line s v r : string) (bol : bool).

Lemma match_line_from_unfold key bol s :
  match_line_from key bol s =
    match (if bol then strip_prefix key s else None) with
    | Some after => Some (line_rest after).1
    | None =>
        match s with
        | EmptyString => None
        | String c s' => match_line_from key (is_line_terminator c) s'
        end
    end.
Proof. by destruct s. Qed.

Lemma replace_line_from_unfold key line bol s :
  replace_line_from key line bol s =
    match (if bol then strip_prefix key s else None) with
    | Some after => line +:+ (line_rest after).2
    | None =>
        match s with
        | EmptyString => EmptyString
        | String c s' => String c (replace_line_from key line (is_line_terminator c) s')
        end
    end.
Proof. by destruct s. Qed.

(** At a position where [key] does not match, it does not match after a
    replacement further on either. *)
Lemma strip_prefix_cons_replace key1 line k c s :
  one_line k → k ≠ "" →
  strip_prefix k (String c (replace_line_from key1 line (is_line_terminator c) s)) =
    (λ x, replace_line_from key1 line false x) <$> strip_prefix k (String c s).
Proof.
  intros Hk Hne. destruct (is_line_terminator c) eqn:Hc.
  - by rewrite !terminator_not_in_key.
  - destruct k as [|a k]; [done|]. simpl. case_decide; [|done].
    apply strip_prefix_replace. unfold one_line in *. simpl in Hk.
    by apply andb_True in Hk as [_ ?].
Qed.

Lemma match_replace_same key v bol s :
  one_line key → key ≠ "" → one_line v →
  match_line_from key bol (replace_line_from key (key +:+ v) bol s) =
    (λ _, v) <$> match_line_from key bol s.
Proof.
  intros Hk Hne Hv. revert bol. induction s as [|c s IH]; intros bol.
  - destruct bol, key; done.
  - rewrite replace_line_from_unfold, (match_line_from_unfold key bol (String c s)).
    destruct bol.
    + destruct (strip_prefix key (String c s)) as [after|] eqn:E.
      * rewrite match_line_from_unfold.
        destruct (line_rest_spec after) as (_ & _ & Hr).
        rewrite string_app_assoc, strip_prefix_app. simpl.
        by rewrite line_rest_app.
      * rewrite match_line_from_unfold, strip_prefix_cons_replace, E by done.
        simpl. apply IH.
    + rewrite match_line_from_unfold. apply IH.
Qed.

Lemma match_replace_other key1 v key2 bol s :
  one_line key1 → one_line v → one_line key2 → independent key1 key2 →
  match_line_from key2 bol (replace_line_from key1 (key1 +:+ v) bol s) =
    match_line_from key2 bol s.
Proof.
  intros Hk1 Hv Hk2 Hi.
  pose proof (independent_nonempty _ _ Hi) as Hne1.
  pose proof (independent_nonempty _ _ (independent_sym _ _ Hi)) as Hne2.
  revert bol. induction s as [|c s IH]; intros bol.
  - destruct bol, key1; done.
  - rewrite replace_line_from_unfold. destruct bol.
    + destruct (strip_prefix key1 (String c s)) as [after|] eqn:E.
      * apply strip_prefix_Some in E. rewrite E.
        destruct (line_rest_spec after) as (Ha & Hl & Hr).
        rewrite Ha at 2.
        rewrite (match_line_from_unfold key2 true ((key1 +:+ v) +:+ _)).
        rewrite (match_line_from_unfold key2 true (key1 +:+ _)).
        rewrite string_app_assoc, !independent_app by done.
        destruct key1 as [|a key1]; [done|]. simpl.
        unfold one_line in Hk1. simpl in Hk1. apply andb_True in Hk1 as [Ha1 Hk1].
        destruct (is_line_terminator a); [done|].
        rewrite <- !string_app_assoc, !match_line_skip; [done|..];
          unfold one_line; rewrite ?one_line_app; by try apply andb_True.
      * rewrite match_line_from_unfold, strip_prefix_cons_replace by done.
        rewrite (match_line_from_unfold key2 true (String c s)).
        destruct (strip_prefix key2 (String c s)) as [after|]; simpl.
        -- by rewrite line_rest_replace.
        -- apply IH.
    + rewrite match_line_from_unfold. apply IH.
Qed.

(** Without a line that starts with [key], nothing is replaced. *)
Lemma replace_without_match key line bol s :
  match_line_from key bol s = None → replace_line_from key line bol s = s.
Proof.
  revert bol. induction s as [|c s IH]; intros bol.
  - rewrite match_line_from_unfold, replace_line_from_unfold.
    by destruct (if bol then strip_prefix key "" else None).
  - rewrite match_line_from_unfold, replace_line_from_unfold.
    destruct (if bol then strip_prefix key (String c s) else None); [done|].
    intros Hm. by rewrite IH.
Qed.
End replace_facts.

(** ** Printed numbers *)
Section pretty_facts.
Import Js FixStats Reconciler ReconcilerSpec.

Lemma pretty_N_go_chars (P : ascii → bool) x s :
  (∀ d, P (pretty_N_char d)) → all_chars P s → all_chars P (pretty_N_go x s).
Proof.
  intros HP. revert s. induction (N.lt_wf_0 x) as [x _ IH]; intros s Hs.
  assert (x = 0 ∨ 0 < x)%N as [->|?] by lia; [done|].
  rewrite pretty_N_go_step by done. apply IH; [by apply N.div_lt|].
  simpl. apply andb_True. split; [apply HP|done].
Qed.

Lemma pretty_Z_chars (P : ascii → bool) (z : Z) :
  (∀ d, P (pretty_N_char d)) → P "-"%char → all_chars P (pretty z).
Proof.
  intros HP Hdash.
  assert (∀ p : positive, all_chars P (pretty p)) as Hpos.
  { intros p. unfold pretty, pretty_positive, pretty, pretty_N.
    case_decide; [done|]. by apply pretty_N_go_chars. }
  destruct z as [|p|p]; [|apply Hpos|].
  { change (Is_true (P (pretty_N_char 0) && true)). apply andb_True. split; [apply HP|done]. }
  change (all_chars P (String "-" (pretty p))). simpl.
  apply andb_True. split; [done|apply Hpos].
Qed.

Lemma pretty_one_line (z : Z) : one_line (pretty z).
Proof.
  apply pretty_Z_chars; [|done]. intros d. unfold pretty_N_char. by repeat case_match.
Qed.

Lemma digit_value_pretty_N_char d :
  (d < 10)%N → digit_value (pretty_N_char d) = Some (Z.of_N d).
Proof.
  intros Hd.
  assert (d = 0 ∨ d = 1 ∨ d = 2 ∨ d = 3 ∨ d = 4 ∨ d = 5 ∨ d = 6 ∨ d = 7
          ∨ d = 8 ∨ d = 9)%N as Hcases by lia.
  by repeat (destruct Hcases as [->|Hcases]; [done|]); subst.
Qed.

Lemma parse_digits_pretty_N_go x s acc :
  (0 < x)%N → default 0 acc = 0 →
  parse_digits 10 acc (pretty_N_go x s) = parse_digits 10 (Some (Z.of_N x)) s.
Proof.
  revert s. induction (N.lt_wf_0 x) as [x _ IH]; intros s Hx Hacc.
  rewrite pretty_N_go_step by done.
  assert (x `mod` 10 < 10)%N as Hd by (by apply N.mod_lt).
  pose proof (N.div_mod x 10 ltac:(done)) as Hx10.
  assert (x `div` 10 = 0 ∨ 0 < x `div` 10)%N as [Hq|Hq] by lia.
  - rewrite Hq, pretty_N_go_0. simpl.
    rewrite digit_value_pretty_N_char by done.
    assert ((Z.of_N (x `mod` 10) <? 10) = true) as -> by (apply Z.ltb_lt; lia).
    rewrite Hacc. do 2 f_equal. lia.
  - rewrite IH by (done || by apply N.div_lt). simpl.
    rewrite digit_value_pretty_N_char by done.
    assert ((Z.of_N (x `mod` 10) <? 10) = true) as -> by (apply Z.ltb_lt; lia).
    simpl. do 2 f_equal. lia.
Qed.

(** A text of decimal digits has no white space, sign or base prefix for
    [parseInt] to take off. *)
Lemma digits_unprefixed s :
  all_chars StatsHistory.is_digit s →
  trim_start s = s ∧ strip_sign s = (false, s) ∧ strip_radix s = (10, s).
Proof.
  destruct s as [|c s]; [done|]. simpl. intros [Hc Hs]%andb_True.
  destruct c as [[] [] [] [] [] [] [] []]; try done.
  destruct s as [|c' s]; [done|]. simpl in Hs. apply andb_True in Hs as [Hc' _].
  by destruct c' as [[] [] [] [] [] [] [] []].
Qed.

Lemma parseInt_pretty_positive (p : positive) :
  all_chars StatsHistory.is_digit (pretty p) ∧
  parse_digits 10 None (pretty p) = Some (Z.pos p).
Proof.
  unfold pretty, pretty_positive, pretty, pretty_N. case_decide; [done|]. split.
  - apply pretty_N_go_chars; [|done]. intros d. unfold pretty_N_char. by repeat case_match.
  - by rewrite parse_digits_pretty_N_go.
Qed.

Lemma parseInt_string_pretty (z : Z) : parseInt_string (pretty z) = Some z.
Proof.
  destruct z as [|p|p]; [done|..].
  - destruct (parseInt_pretty_positive p) as [Hd Hp].
    destruct (digits_unprefixed _ Hd) as (Ht & Hs & Hr).
    change (pretty (Z.pos p)) with (pretty p).
    unfold parseInt_string. by rewrite Ht, Hs, Hr, Hp.
  - destruct (parseInt_pretty_positive p) as [Hd Hp].
    destruct (digits_unprefixed _ Hd) as (Ht & Hs & Hr).
    change (pretty (Z.neg p)) with (String "-" (pretty p)).
    unfold parseInt_string. simpl. by rewrite Hr, Hp.
Qed.

Lemma pretty_nonempty (z : Z) : pretty z ≠ "".
Proof. intros Hz. pose proof (parseInt_string_pretty z) as Hp. by rewrite Hz in Hp. Qed.
End pretty_facts.

(** ** Folder names *)
Section name_facts.
Import Js FixStats Reconciler ReconcilerSpec.

Lemma split_separator rest : split (String "_" (String "_" rest)) = "" :: split rest.
Proof. done. Qed.

Lemma split_char c s :
  (c = "_"%char → ∀ r, s ≠ String "_" r) →
  split (String c s) =
    match split s with
    | part :: parts => String c part :: parts
    | [] => [String c ""]
    end.
Proof.
  intros Hc. destruct (decide (c = "_"%char)) as [->|Hne].
  - destruct s as [|a r]; [done|].
    destruct (decide (a = "_"%char)) as [->|Ha]; [by destruct (Hc eq_refl r)|].
    by destruct a as [[] [] [] [] [] [] [] []].
  - by destruct c as [[] [] [] [] [] [] [] []].
Qed.

Lemma join_cons part parts :
  parts ≠ [] → join (part :: parts) = part +:+ "__" +:+ join parts.
Proof. by destruct parts. Qed.

Lemma split_join_both s :
  (split s ≠ [] ∧ join (split s) = s) ∧
  (∀ c, split (String c s) ≠ [] ∧ join (split (String c s)) = String c s).
Proof.
  induction s as [|a s [[Hne Hs] IH]].
  - split; [done|]. intros c. rewrite split_char by done. done.
  - split; [apply IH|]. intros c.
    destruct (decide (c = "_"%char ∧ a = "_"%char)) as [[-> ->]|Hca].
    + rewrite split_separator. split; [done|]. by rewrite join_cons, Hs.
    + destruct (IH a) as [Hne' Hs']. rewrite split_char.
      * destruct (split (String a s)) as [|part parts]; [done|]. split; [done|].
        destruct parts as [|p parts]; simpl in *; by rewrite <- Hs'.
      * intros -> r [= -> _]. by apply Hca.
Qed.

Lemma split_nonempty s : split s ≠ [].
Proof. apply split_join_both. Qed.

Lemma prefix_separator c p :
  String.prefix "__" (String c p) = true → c = "_"%char ∧ ∃ r, p = String "_" r.
Proof.
  intros [after Heq]%prefix_spec.
  change ("__" +:+ after) with (String "_" (String "_" after)) in Heq.
  injection Heq as -> ->. eauto.
Qed.

Lemma separator_free_cons c p :
  includes p "__" = false →
  (c = "_"%char → ∀ r, p ≠ String "_" r) →
  includes (String c p) "__" = false.
Proof.
  intros Hp Hc. rewrite includes_unfold, Hp, orb_false_r.
  apply not_true_is_false. intros [-> [r ->]]%prefix_separator.
  by apply (Hc eq_refl r).
Qed.

Lemma split_head a s :
  a ≠ "_"%char → ∃ p parts, split (String a s) = String a p :: parts.
Proof.
  intros Ha. rewrite split_char by done. destruct (split s); eauto.
Qed.

(** No part that [split] returns holds a separator. *)
Lemma split_parts_both s :
  Forall (λ p, includes p "__" = false) (split s) ∧
  ∀ c, Forall (λ p, includes p "__" = false) (split (String c s)).
Proof.
  induction s as [|a s [Hs IH]].
  - split; [by repeat constructor|]. intros c. rewrite split_char by done. simpl.
    constructor; [|done]. apply separator_free_cons; [done|]. by intros _ r.
  - split; [apply IH|]. intros c.
    destruct (decide (c = "_"%char ∧ a = "_"%char)) as [[-> ->]|Hca].
    + rewrite split_separator. by constructor.
    + pose proof (IH a) as Ha. rewrite split_char by (intros -> r [= -> _]; by apply Hca).
      destruct (split (String a s)) as [|part parts] eqn:Hsp;
        [by destruct (split_nonempty (String a s))|].
      apply Forall_cons in Ha as [Hpart Hparts]. constructor; [|done].
      apply separator_free_cons; [done|]. intros -> r ->.
      destruct (split_head a s) as (p & ps & Heq).
      { intros ->. by apply Hca. }
      rewrite Heq in Hsp. injection Hsp as -> _. by apply Hca.
Qed.

Lemma split_parts s : Forall (λ p, ¬ Spec.contains p "__") (split s).
Proof.
  eapply Forall_impl; [apply split_parts_both|]. intros p. apply includes_not_contains.
Qed.

Lemma join_snoc parts x : join (parts ++ [x]) = join_prefix parts +:+ x.
Proof.
  induction parts as [|p parts IH]; [done|].
  change ((p :: parts) ++ [x]) with (p :: (parts ++ [x])).
  rewrite join_cons by (by destruct parts). rewrite IH. simpl.
  by rewrite !string_app_assoc.
Qed.

End name_facts.

(** ** The loop over the folders and the renames *)
Section loop_facts.
Import Js FixStats Reconciler ReconcilerSpec.
Implicit Types (st : Progress) (listing : gmap string Entry) (folder : string).

Lemma entry_kept_refl e : entry_kept e e.
Proof. by destruct e. Qed.

Lemma entry_kept_trans e1 e2 e3 : entry_kept e1 e2 → entry_kept e2 e3 → entry_kept e1 e3.
Proof.
  destruct e1, e2, e3; simpl; try done.
  intros [-> H1] [-> H2]. split; [done|]. by rewrite H2.
Qed.

Lemma listing_kept_refl listing : listing_kept listing listing.
Proof.
  intros n. destruct (listing !! n); constructor. apply entry_kept_refl.
Qed.

Lemma listing_kept_trans l1 l2 l3 :
  listing_kept l1 l2 → listing_kept l2 l3 → listing_kept l1 l3.
Proof.
  intros H12 H23 n. specialize (H12 n). specialize (H23 n).
  destruct H12; inversion H23; simplify_eq; constructor.
  by eapply entry_kept_trans.
Qed.

Lemma listing_kept_directory l1 l2 n d :
  listing_kept l1 l2 → l1 !! n = Some (Directory d) →
  ∃ d', l2 !! n = Some (Directory d') ∧ summary d' = summary d ∧
        (is_Some (metadata d') ↔ is_Some (metadata d)).
Proof.
  intros Hk Hn. specialize (Hk n). rewrite Hn in Hk.
  inversion Hk as [e1 e2 He|]; simplify_eq. destruct e2 as [|d']; [done|].
  exists d'. by destruct He.
Qed.

(** One visit: the listing keeps its shape, the dry run writes nothing, and
    at most one rename of the visited folder itself is queued. *)
Lemma visit_reports DRY_RUN st folder :
  listing_kept (reports st) (reports (visit DRY_RUN st folder)) ∧
  (DRY_RUN = true → reports (visit DRY_RUN st folder) = reports st) ∧
  (∃ queued, renames (visit DRY_RUN st folder) = renames st ++ queued ∧
             queued.*1 `sublist_of` [folder] ∧
             (DRY_RUN = true → queued = [])).
Proof.
  assert (Hsame : listing_kept (reports st) (reports st) ∧
    (DRY_RUN = true → reports st = reports st) ∧
    ∃ queued, renames st = renames st ++ queued ∧
              queued.*1 `sublist_of` [folder] ∧ (DRY_RUN = true → queued = [])).
  { split_and!; [apply listing_kept_refl|done|]. exists []. rewrite app_nil_r.
    split_and!; [done|apply sublist_nil_l|done]. }
  unfold visit.
  destruct (reports st !! folder) as [[|d]|] eqn:Hf; try exact Hsame.
  destruct (countFromSummary (summary d)) as [counts|]; simpl; [|exact Hsame].
  case_match; simpl; [exact Hsame|].
  destruct DRY_RUN; simpl; [exact Hsame|]. clear Hsame.
  split_and!; [|done|].
  - destruct (metadata d) as [content|] eqn:Hm; [|apply listing_kept_refl].
    intros n. destruct (decide (folder = n)) as [<-|Hne].
    + rewrite lookup_insert_eq, Hf. constructor. simpl. split; [done|].
      rewrite Hm. split; eauto.
    + rewrite lookup_insert_ne by done. apply listing_kept_refl.
  - eexists. split; [done|]. split; [|done].
    destruct (decide (statusTag _ _ = _)); simpl; [apply sublist_nil_l|].
    destruct (renamed folder _); simpl; [done|apply sublist_nil_l].
Qed.

Lemma visit_counts DRY_RUN st folder d :
  reports st !! folder = Some (Directory d) →
  visited (visit DRY_RUN st folder) = S (visited st).
Proof.
  intros Hf. unfold visit, visited. rewrite Hf.
  destruct (countFromSummary (summary d)); simpl; [|lia].
  case_match; simpl; [lia|]. destruct DRY_RUN; simpl; lia.
Qed.

Lemma foldl_visit DRY_RUN folders st :
  NoDup folders →
  (∀ f, f ∈ folders → ∃ d, reports st !! f = Some (Directory d)) →
  let st' := foldl (visit DRY_RUN) st folders in
  listing_kept (reports st) (reports st') ∧
  (DRY_RUN = true → reports st' = reports st) ∧
  visited st' = (visited st + length folders)%nat ∧
  ∃ queued, renames st' = renames st ++ queued ∧
            queued.*1 `sublist_of` folders ∧
            (DRY_RUN = true → queued = []).
Proof.
  intros Hnd. revert st. induction Hnd as [|f folders Hf Hnd IH]; intros st Hdirs; simpl.
  { split_and!; [apply listing_kept_refl|done|unfold visited; lia|].
    exists []. by rewrite app_nil_r. }
  destruct (Hdirs f) as [d Hd]; [left|].
  destruct (visit_reports DRY_RUN st f) as (Hk & Hdry & q1 & Hq1 & Hs1 & Hd1).
  destruct (IH (visit DRY_RUN st f)) as (Hk' & Hdry' & Hv & q2 & Hq2 & Hs2 & Hd2).
  { intros g Hg. destruct (Hdirs g) as [dg Hdg]; [by right|].
    destruct (listing_kept_directory _ _ _ _ Hk Hdg) as (d' & ? & _). eauto. }
  split_and!.
  - by eapply listing_kept_trans.
  - intros Hb. by rewrite Hdry', Hdry.
  - rewrite Hv, (visit_counts _ _ _ _ Hd). lia.
  - exists (q1 ++ q2). split; [by rewrite Hq2, Hq1, app_assoc|]. split.
    + rewrite fmap_app. change (f :: folders) with ([f] ++ folders).
      by apply sublist_app.
    + intros Hb. by rewrite Hd1, Hd2.
Qed.

Lemma elem_of_folders_of listing n :
  n ∈ folders_of listing ↔ ∃ d, listing !! n = Some (Directory d).
Proof.
  unfold folders_of. rewrite elem_of_sorted_keys. split.
  - intros [e He]. apply map_lookup_filter_Some in He as [He Hdir].
    destruct e as [|d]; [done|]. eauto.
  - intros [d Hd]. exists (Directory d). by apply map_lookup_filter_Some.
Qed.

Lemma loop_spec DRY_RUN listing :
  let st := loop DRY_RUN listing in
  listing_kept listing (reports st) ∧
  (DRY_RUN = true → reports st = listing) ∧
  visited st = length (folders_of listing) ∧
  (renames st).*1 `sublist_of` folders_of listing ∧
  (DRY_RUN = true → renames st = []).
Proof.
  destruct (foldl_visit DRY_RUN (folders_of listing) (start DRY_RUN listing))
    as (Hk & Hdry & Hv & q & Hq & Hs & Hd).
  { apply NoDup_sorted_keys. }
  { intros f. apply elem_of_folders_of. }
  unfold loop. simpl in *. rewrite Hq. by split_and!.
Qed.

(** One visit of a real run, exactly: the folder becomes [after_run] of what
    it was, and the rename it wants is queued. *)
Lemma visit_exact st folder d :
  reports st !! folder = Some (Directory d) →
  reports (visit false st folder) = <[folder := Directory (after_run d)]> (reports st) ∧
  renames (visit false st folder)
  = renames st ++ from_option (λ n, [(folder, n)]) [] (wanted_name folder d).
Proof.
  intros Hf. unfold visit, after_run, wanted_name, to_fix. rewrite Hf.
  destruct (countFromSummary (summary d)) as [counts|]; simpl.
  2: { by rewrite insert_id, app_nil_r. }
  destruct (decide (up_to_date d counts)) as [Hup|Hup].
  - destruct Hup as (Hp & Hfl & Ht). rewrite !bool_decide_eq_true_2 by done. simpl.
    by rewrite insert_id, app_nil_r.
  - destruct (bool_decide (old_value "PASSED=" (metadata d) = pretty (passed counts))
              && bool_decide (old_value "FAILED=" (metadata d) = pretty (failed counts))
              && bool_decide (old_value "TOTAL=" (metadata d) = pretty (total counts)))
      eqn:Hsame.
    { apply andb_true_iff in Hsame as [[H1 H2]%andb_true_iff H3].
      apply bool_decide_eq_true in H1, H2, H3. by destruct Hup. }
    simpl. split; [|done].
    destruct d as [sm [content|]]; simpl in *; [done|]. by rewrite insert_id.
Qed.

Lemma foldl_visit_exact folders st :
  NoDup folders →
  (∀ f, f ∈ folders → ∃ d, reports st !! f = Some (Directory d)) →
  let st' := foldl (visit false) st folders in
  (∀ n, n ∉ folders → reports st' !! n = reports st !! n) ∧
  (∀ n d, n ∈ folders → reports st !! n = Some (Directory d) →
     reports st' !! n = Some (Directory (after_run d))) ∧
  ∃ queued, renames st' = renames st ++ queued ∧
    ∀ o n, (o, n) ∈ queued ↔
      o ∈ folders ∧ ∃ d, reports st !! o = Some (Directory d) ∧ wanted_name o d = Some n.
Proof.
  intros Hnd. revert st. induction Hnd as [|f folders Hf Hnd IH]; intros st Hdirs; simpl.
  { split_and!; [done|by intros n d ?%elem_of_nil|]. exists []. rewrite app_nil_r.
    split; [done|]. intros o n. split; [by intros ?%elem_of_nil|].
    by intros [?%elem_of_nil _]. }
  destruct (Hdirs f) as [d Hd]; [left|].
  destruct (visit_exact st f d Hd) as [Hr Hq].
  destruct (IH (visit false st f)) as (Hout & Hin & q2 & Hq2 & Hfacts).
  { intros g Hg. rewrite Hr, lookup_insert_ne by (intros ->; done).
    apply Hdirs. by right. }
  split_and!.
  - intros n Hn. apply not_elem_of_cons in Hn as [Hnf Hn].
    by rewrite Hout, Hr, lookup_insert_ne.
  - intros n dn [->|Hn]%elem_of_cons Hdn.
    + rewrite Hout, Hr, lookup_insert_eq by done. congruence.
    + apply Hin; [done|]. rewrite Hr, lookup_insert_ne by (intros ->; done). done.
  - eexists. split; [by rewrite Hq2, Hq, <- app_assoc|].
    intros o n. rewrite elem_of_app, Hfacts. split.
    + intros [Ho|(Hof & d' & Hd' & Hw)].
      * destruct (wanted_name f d) as [w|] eqn:Hw; simpl in Ho; [|by apply elem_of_nil in Ho].
        apply list_elem_of_singleton in Ho as [= -> ->]. split; [left|]. eauto.
      * split; [by right|]. exists d'. split; [|done].
        rewrite Hr, lookup_insert_ne in Hd' by (intros ->; done). done.
    + intros ([->|Hof]%elem_of_cons & d' & Hd' & Hw).
      * left. assert (d' = d) as -> by congruence. rewrite Hw. simpl. left.
      * right. split; [done|]. exists d'. split; [|done].
        rewrite Hr, lookup_insert_ne by (intros ->; done). done.
Qed.

(** The real run's loop, folder by folder. *)
Lemma loop_exact listing :
  let st := loop false listing in
  (∀ n, listing !! n = Some PlainFile → reports st !! n = Some PlainFile) ∧
  (∀ n d, listing !! n = Some (Directory d) →
     reports st !! n = Some (Directory (after_run d))) ∧
  (∀ o n, (o, n) ∈ renames st ↔
     ∃ d, listing !! o = Some (Directory d) ∧ wanted_name o d = Some n).
Proof.
  destruct (foldl_visit_exact (folders_of listing) (start false listing))
    as (Hout & Hin & q & Hq & Hfacts).
  { apply NoDup_sorted_keys. }
  { intros f. apply elem_of_folders_of. }
  unfold loop. simpl in *. split_and!.
  - intros n Hn. rewrite Hout; [done|]. intros [d Hd]%elem_of_folders_of. congruence.
  - intros n d Hn. apply Hin; [|done]. apply elem_of_folders_of. eauto.
  - intros o n. rewrite Hq, Hfacts. split; [by intros [_ ?]|].
    intros (d & Hd & Hw). split; [apply elem_of_folders_of|]; eauto.
Qed.
End loop_facts.

(** ** Applying the renames *)
Section rename_facts.
Import Js FixStats Reconciler ReconcilerSpec.
Implicit Types (listing : gmap string Entry) (rs : list (string * string)).

(** The renames as a renaming: every entry is found under the name
    [name_after] gives it, which is its own name or the target of its rename;
    no two entries end under one name; and a rename whose target is free and
    asked for by no other rename is carried out. *)
Lemma apply_renames_exact rs listing out :
  NoDup rs.*1 →
  (∀ o, o ∈ rs.*1 → is_Some (listing !! o)) →
  ∃ listing' out' (name_after : string → string),
    apply_renames rs listing out = Some (listing', out') ∧
    size listing' = size listing ∧
    (∀ n e, listing !! n = Some e → listing' !! name_after n = Some e) ∧
    (∀ n, is_Some (listing !! n) → name_after n = n ∨ (n, name_after n) ∈ rs) ∧
    (∀ n n', is_Some (listing !! n) → is_Some (listing !! n') →
       name_after n = name_after n' → n = n') ∧
    (∀ o t, (o, t) ∈ rs → listing !! t = None → (∀ o', (o', t) ∈ rs → o' = o) →
       name_after o = t).
Proof.
  revert listing out. induction rs as [|[oldName newName] rs IH]; intros listing out.
  { intros _ _. exists listing, out, id. split_and!; eauto.
    by intros o t ?%elem_of_nil. }
  rewrite fmap_cons, NoDup_cons. simpl. intros [Hold Hnd] Hsrc.
  destruct (listing !! newName) as [taken|] eqn:Hnew.
  - destruct (IH listing (out ++ [log (nl +:+ "  WARN  Cannot rename " +:+ oldName
        +:+ " → target already exists, skipping rename")]) Hnd)
      as (l' & o' & name_after & -> & Hsize & Hfwd & Hname & Hinj & Hdone).
    { intros o Ho. apply Hsrc. by right. }
    exists l', o', name_after. split_and!; [done..| |done|].
    + intros n Hn. destruct (Hname n Hn) as [?|?]; [by left|right; by right].
    + intros o t [[= -> ->]|Hin]%elem_of_cons Hfree Honly; [congruence|].
      apply Hdone; [done..|]. intros o'' Hin'. apply Honly. by right.
  - destruct (Hsrc oldName) as [entry Hentry]; [left|]. rewrite Hentry.
    assert (oldName ≠ newName) as Hon by congruence.
    destruct (IH (<[newName := entry]> (delete oldName listing)) out Hnd)
      as (l' & o' & name_after & -> & Hsize & Hfwd & Hname & Hinj & Hdone).
    { intros o Ho. destruct (decide (o = newName)) as [->|Hne].
      - rewrite lookup_insert_eq. eauto.
      - rewrite lookup_insert_ne, lookup_delete_ne by congruence.
        apply Hsrc. by right. }
    assert (Hmoved : ∀ n, n ≠ oldName → is_Some (listing !! n) →
              is_Some (<[newName := entry]> (delete oldName listing) !! n)).
    { intros n Hn Hsome. rewrite lookup_insert_ne by (intros <-; by destruct Hsome; congruence).
      by rewrite lookup_delete_ne. }
    assert (Htarget : name_after newName = newName).
    { destruct (Hname newName) as [?|Hin]; [by rewrite lookup_insert_eq|done|].
      destruct (Hsrc newName) as [? ?]; [|congruence].
      right. apply list_elem_of_fmap. by exists (newName, name_after newName). }
    exists l', o', (λ n, if decide (n = oldName) then name_after newName else name_after n).
    split_and!; [done| | | | |].
    + rewrite Hsize, map_size_insert_None by (by rewrite lookup_delete_ne).
      pose proof (map_size_delete_Some oldName listing ltac:(eauto)).
      pose proof (map_size_ne_0_lookup_2 listing oldName ltac:(eauto)). lia.
    + intros n e Hn. case_decide as Hno.
      * subst n. assert (e = entry) as -> by congruence.
        apply Hfwd, lookup_insert_eq.
      * apply Hfwd. rewrite lookup_insert_ne, lookup_delete_ne by congruence. done.
    + intros n Hn. case_decide as Hno.
      * subst n. right. rewrite Htarget. left.
      * destruct (Hname n (Hmoved n Hno Hn)) as [?|?]; [by left|right; by right].
    + intros n n' Hn Hn'. repeat case_decide; subst; intros Heq; try done.
      * apply Hinj in Heq; [|by rewrite lookup_insert_eq|by apply Hmoved].
        subst n'. destruct Hn'. congruence.
      * apply Hinj in Heq; [|by apply Hmoved|by rewrite lookup_insert_eq].
        subst n. destruct Hn. congruence.
      * apply Hinj in Heq; [done|by apply Hmoved..].
    + intros o t [[= -> ->]|Hin]%elem_of_cons Hfree Honly.
      * by rewrite decide_True.
      * assert (o ≠ oldName) as Ho.
        { intros ->. apply Hold, list_elem_of_fmap. by exists (oldName, t). }
        assert (t ≠ newName) as Ht.
        { intros ->. apply Ho. symmetry. apply Honly. left. }
        rewrite decide_False by done. apply Hdone; [done| |].
        -- rewrite lookup_insert_ne by done. apply lookup_delete_None. by right.
        -- intros o'' Hin'. apply Honly. by right.
Qed.
End rename_facts.

(** ** Properties of the reconciler's functions *)
Section reconciler_extras.
Import Js FixStats Reconciler ReconcilerSpec.
Implicit Types (listing : gmap string Entry) (st : Progress) (content folder : string).

Lemma old_value_printed key content (z : Z) :
  match_line key content = Some (pretty z) → old_value key (Some content) = pretty z.
Proof.
  unfold old_value. intros ->. pose proof (pretty_nonempty z).
  by destruct (pretty z).
Qed.

Lemma updateMetadata_read content (p f t : Z) :
  match_line "PASSED=" (updateMetadata content p f t)
    = (λ _, pretty p) <$> match_line "PASSED=" content ∧
  match_line "FAILED=" (updateMetadata content p f t)
    = (λ _, pretty f) <$> match_line "FAILED=" content ∧
  match_line "TOTAL=" (updateMetadata content p f t)
    = (λ _, pretty t) <$> match_line "TOTAL=" content.
Proof.
  unfold updateMetadata, match_line, replace_line. split_and!.
  - rewrite match_replace_other by (done || apply pretty_one_line).
    rewrite match_replace_same by (done || apply pretty_one_line).
    by rewrite match_replace_other by (done || apply pretty_one_line).
  - rewrite match_replace_same by (done || apply pretty_one_line).
    by rewrite !match_replace_other by (done || apply pretty_one_line).
  - rewrite !match_replace_other by (done || apply pretty_one_line).
    by rewrite match_replace_same by (done || apply pretty_one_line).
Qed.

(** X9.  After [updateMetadata], each of the three keys that had a line reads
    back as the new number; a key that had no line still has none. *)
Theorem metadata_read_back content (p f t : Z) :
  match_line "PASSED=" (updateMetadata content p f t)
    = (λ _, pretty p) <$> match_line "PASSED=" content ∧
  match_line "FAILED=" (updateMetadata content p f t)
    = (λ _, pretty f) <$> match_line "FAILED=" content ∧
  match_line "TOTAL=" (updateMetadata content p f t)
    = (λ _, pretty t) <$> match_line "TOTAL=" content.
Proof.
  destruct (updateMetadata_read content p f t) as (Hp & Hf & Ht).
  split_and!; [exact Hp|exact Hf|exact Ht].
Qed.

(** X10.  [updateMetadata] leaves the value of every other key as it was: a
    one-line key that is neither a prefix of [TOTAL=], [PASSED=] or [FAILED=]
    nor has one of them as a prefix. *)
Theorem metadata_other_keys content (p f t : Z) key :
  one_line key →
  independent "TOTAL=" key →
  independent "PASSED=" key →
  independent "FAILED=" key →
  match_line key (updateMetadata content p f t) = match_line key content.
Proof.
  intros Hk Ht Hp Hf. unfold updateMetadata, match_line, replace_line.
  by rewrite !match_replace_other by (done || apply pretty_one_line).
Qed.

Lemma metadata_other_keys_witness :
  match_line "TIMESTAMP=" (updateMetadata SampleDirs.meta_stale 8 3 11)
  = match_line "TIMESTAMP=" SampleDirs.meta_stale.
Proof.
  apply metadata_other_keys.
  - vm_compute. exact I.
  - split; reflexivity.
  - split; reflexivity.
  - split; reflexivity.
Defined.

(** X11.  A [.metadata] text without a [TOTAL=], [PASSED=] or [FAILED=] line
    comes back from [updateMetadata] unchanged: missing keys are not added. *)
Theorem metadata_without_keys content (p f t : Z) :
  match_line "TOTAL=" content = None →
  match_line "PASSED=" content = None →
  match_line "FAILED=" content = None →
  updateMetadata content p f t = content.
Proof.
  unfold updateMetadata, match_line, replace_line. intros Ht Hp Hf.
  by rewrite (replace_without_match "TOTAL=" _ _ _ Ht),
    (replace_without_match "PASSED=" _ _ _ Hp),
    (replace_without_match "FAILED=" _ _ _ Hf).
Qed.

Lemma metadata_without_keys_witness :
  updateMetadata ("TIMESTAMP=2026-02-18_100000" +:+ nl +:+ "NOTE=TOTAL=5" +:+ nl) 8 3 11
  = "TIMESTAMP=2026-02-18_100000" +:+ nl +:+ "NOTE=TOTAL=5" +:+ nl.
Proof. apply metadata_without_keys; reflexivity. Defined.

(** X12.  Splitting a folder name at [__] and joining the parts with [__]
    gives the name back. *)
Theorem join_split (s : string) : join (split s) = s.
Proof. apply split_join_both. Qed.

(** X13.  A rename replaces the last part found by [split] and nothing else.
    The folder name splits into parts and a last part, none of them holding a
    separator, and is the parts, each followed by [__], and then the last
    part.  When the last part contains "passed" the new name is the same
    text with the new tag in place of the last part; otherwise there is no
    rename. *)
Theorem renamed_keeps_prefix folder newTag :
  ∃ parts lastPart,
    split folder = parts ++ [lastPart] ∧
    Forall (λ p, ¬ Spec.contains p "__") (parts ++ [lastPart]) ∧
    folder = join_prefix parts +:+ lastPart ∧
    (Spec.contains lastPart "passed" →
       renamed folder newTag = Some (join_prefix parts +:+ newTag)) ∧
    (¬ Spec.contains lastPart "passed" → renamed folder newTag = None).
Proof.
  unfold renamed. pose proof (split_nonempty folder) as Hne.
  pose proof (split_parts folder) as Hparts.
  destruct (split_join_both folder) as [[_ Hjoin] _].
  destruct (split folder) as [|lastPart parts _] using rev_ind; [done|].
  exists parts, lastPart. rewrite last_snoc, removelast_last. simpl.
  split_and!; [done|done|by rewrite <- join_snoc| |].
  - intros Hc%includes_contains. by rewrite Hc, join_snoc.
  - intros Hc%includes_not_contains. by rewrite Hc.
Qed.

Lemma renamed_keeps_prefix_witness :
  renamed SampleDirs.folder_stale "8passed_3failed" = Some SampleDirs.folder_fixed.
Proof.
  destruct (renamed_keeps_prefix SampleDirs.folder_stale "8passed_3failed")
    as (parts & lastPart & Hsplit & _ & _ & Hsome & _).
  assert (Hs : parts ++ [lastPart]
               = ["2026-02-18_100000"; "android-smoke"; "staging"; "main"] ++ ["10passed"])
    by (rewrite <- Hsplit; reflexivity).
  apply app_inj_tail in Hs as [-> ->].
  rewrite Hsome; [reflexivity|]. exists "10", "". reflexivity.
Defined.
End reconciler_extras.

(** ** Properties of a reconciler run *)
Section reconciler_run_extras.
Import Js FixStats Reconciler ReconcilerSpec.
Implicit Types (listing : gmap string Entry) (st : Progress) (content folder : string).

Lemma visit_unchanged DRY_RUN st folder d counts :
  reports st !! folder = Some (Directory d) →
  countFromSummary (summary d) = Some counts →
  old_value "PASSED=" (metadata d) = pretty (passed counts) →
  old_value "FAILED=" (metadata d) = pretty (failed counts) →
  old_value "TOTAL=" (metadata d) = pretty (total counts) →
  visit DRY_RUN st folder =
    {| fixedCount := fixedCount st; skippedCount := skippedCount st;
       unchangedCount := S (unchangedCount st); renames := renames st;
       reports := reports st; console := console st |}.
Proof.
  intros Hf Hc Hp Hfl Ht. unfold visit. rewrite Hf, Hc. simpl.
  by rewrite !bool_decide_eq_true_2.
Qed.

Lemma listing_kept_size l1 l2 : listing_kept l1 l2 → size l1 = size l2.
Proof.
  intros Hk. rewrite <- !size_dom. f_equal. apply set_eq. intros n.
  rewrite !elem_of_dom. specialize (Hk n).
  destruct Hk; split; intros [? ?]; eauto; done.
Qed.

(** X14.  Once a real run has visited a folder whose [.metadata] has the three
    count lines, visiting it again finds it unchanged: only the unchanged
    counter moves, nothing is written, queued or printed. *)
Theorem fixed_folder_stays_fixed DRY_RUN st folder d content counts :
  reports st !! folder = Some (Directory d) →
  metadata d = Some content →
  countFromSummary (summary d) = Some counts →
  is_Some (match_line "TOTAL=" content) →
  is_Some (match_line "PASSED=" content) →
  is_Some (match_line "FAILED=" content) →
  let st1 := visit false st folder in
  visit DRY_RUN st1 folder =
    {| fixedCount := fixedCount st1; skippedCount := skippedCount st1;
       unchangedCount := S (unchangedCount st1); renames := renames st1;
       reports := reports st1; console := console st1 |}.
Proof.
  intros Hf Hm Hc [vt Ht] [vp Hp] [vf Hfl] st1.
  destruct (bool_decide (old_value "PASSED=" (metadata d) = pretty (passed counts))
            && bool_decide (old_value "FAILED=" (metadata d) = pretty (failed counts))
            && bool_decide (old_value "TOTAL=" (metadata d) = pretty (total counts)))
    eqn:Hsame.
  - apply andb_true_iff in Hsame as [[H1 H2]%andb_true_iff H3].
    apply bool_decide_eq_true in H1, H2, H3.
    assert (Hst1 : reports st1 = reports st).
    { unfold st1. by rewrite (visit_unchanged false st folder d counts). }
    apply (visit_unchanged DRY_RUN st1 folder d counts); try done.
    by rewrite Hst1.
  - destruct (updateMetadata_read content (passed counts) (failed counts) (total counts))
      as (Rp & Rf & Rt).
    rewrite Hp in Rp. rewrite Hfl in Rf. rewrite Ht in Rt. simpl in Rp, Rf, Rt.
    apply (visit_unchanged DRY_RUN st1 folder
             {| summary := summary d;
                metadata := Some (updateMetadata content (passed counts) (failed counts)
                                    (total counts)) |} counts); simpl;
      try (by apply old_value_printed); [|done].
    unfold st1, visit. rewrite Hf, Hc. simpl. rewrite Hsame, Hm. simpl.
    apply lookup_insert_eq.
Qed.

Lemma fixed_folder_stays_fixed_witness :
  let st1 := visit false (start false SampleDirs.listing) SampleDirs.folder_stale in
  visit true st1 SampleDirs.folder_stale =
    {| fixedCount := fixedCount st1; skippedCount := skippedCount st1;
       unchangedCount := S (unchangedCount st1); renames := renames st1;
       reports := reports st1; console := console st1 |}.
Proof.
  apply (fixed_folder_stays_fixed true (start false SampleDirs.listing)
           SampleDirs.folder_stale
           {| summary := SampleDirs.summary_8_1_2; metadata := Some SampleDirs.meta_stale |}
           SampleDirs.meta_stale
           {| passed := 8; failed := 3; total := 11;
              detail := {| d_passed := 8; d_failed := 1; d_broken := 2;
                           d_skipped := 3; d_unknown := 0 |} |}).
  - vm_compute. reflexivity.
  - reflexivity.
  - reflexivity.
  - vm_compute. eauto.
  - vm_compute. eauto.
  - vm_compute. eauto.
Defined.

(** X15.  The loop accounts for every folder exactly once: the fixed, skipped
    and unchanged counters add up to the number of directories in the
    listing. *)
Theorem every_folder_counted DRY_RUN listing :
  let st := loop DRY_RUN listing in
  (fixedCount st + skippedCount st + unchangedCount st)%nat
    = length (folders_of listing) ∧
  length (folders_of listing) = size (filter (λ kv, isDirectory kv.2) listing).
Proof.
  split.
  - apply (loop_spec DRY_RUN listing).
  - unfold folders_of. by rewrite sorted_keys_perm, length_fmap, length_map_to_list.
Qed.


(** X17.  A run always completes: no rename is attempted on a missing folder.
    When the renames are done, and before the manifest is regenerated, every
    entry of the reports directory is found under one name of its own, and
    the directory holds nothing else.  A plain file keeps its name.  A report
    folder is, in a dry run, as it was; in a real run it has its summary, its
    [.metadata] rewritten exactly if it was to fix, and either its old name or
    the name the run wanted for it; it has the wanted name whenever that name
    was free and wanted for no other folder. *)
Theorem no_folder_lost DRY_RUN REPORTS_DIR listing regeneration_error :
  ∃ o (name_after : string → string),
    main DRY_RUN REPORTS_DIR (Some listing) regeneration_error = Some o ∧
    exit_code o = 0 ∧
    size (listing_after o) = size listing ∧
    (∀ n n', is_Some (listing !! n) → is_Some (listing !! n') →
       name_after n = name_after n' → n = n') ∧
    (∀ n, listing !! n = Some PlainFile →
       name_after n = n ∧ listing_after o !! n = Some PlainFile) ∧
    (∀ n d, listing !! n = Some (Directory d) →
       listing_after o !! name_after n
         = Some (Directory (if DRY_RUN then d else after_run d)) ∧
       (name_after n = n ∨ (DRY_RUN = false ∧ wanted_name n d = Some (name_after n))) ∧
       (∀ t, DRY_RUN = false → wanted_name n d = Some t → listing !! t = None →
          (∀ n' d', listing !! n' = Some (Directory d') → wanted_name n' d' = Some t →
             n' = n) →
          name_after n = t)).
Proof.
  destruct (loop_spec DRY_RUN listing) as (Hk & Hdry & _ & Hsub & _).
  unfold main. destruct DRY_RUN.
  - eexists _, id. split; [done|]. simpl. rewrite (Hdry eq_refl).
    split_and!; try done. intros n d Hn. split_and!; [done|by left|done].
  - destruct (loop_exact listing) as (Hplain & Hdir & Hqueue).
    assert (Hdom : ∀ n, is_Some (listing !! n) → is_Some (reports (loop false listing) !! n)).
    { intros n [[|d] Hn]; [rewrite (Hplain n Hn)|rewrite (Hdir n d Hn)]; eauto. }
    assert (Hfree : ∀ n, listing !! n = None → reports (loop false listing) !! n = None).
    { intros n Hn. specialize (Hk n). rewrite Hn in Hk. by inversion Hk. }
    destruct (apply_renames_exact (renames (loop false listing))
                (reports (loop false listing)) (console (loop false listing)))
      as (l' & o' & name_after & -> & Hsize & Hfwd & Hname & Hinj & Hdone).
    { eapply sublist_NoDup; [|done]. apply NoDup_sorted_keys. }
    { intros o Ho. apply (elem_of_sublist _ _ _ Ho), elem_of_folders_of in Hsub as [d Hd].
      apply Hdom. eauto. }
    eexists _, name_after. split; [done|]. simpl. split_and!; [done| | | |].
    + by rewrite Hsize, <- (listing_kept_size _ _ Hk).
    + intros n n' Hn Hn'. apply Hinj; by apply Hdom.
    + intros n Hn. assert (name_after n = n) as Hsame.
      { destruct (Hname n) as [?|Hq]; [apply Hdom; eauto|done|].
        apply Hqueue in Hq as (d & Hd & _). congruence. }
      split; [done|]. rewrite <- Hsame at 1. by apply Hfwd, Hplain.
    + intros n d Hn. split_and!; [by apply Hfwd, Hdir| |].
      * destruct (Hname n) as [?|Hq]; [apply Hdom; eauto|by left|].
        apply Hqueue in Hq as (d' & Hd' & Hw). right. split; [done|]. congruence.
      * intros t _ Hw Ht Honly. apply Hdone; [apply Hqueue; eauto|by apply Hfree|].
        intros n' (d' & Hd' & Hw')%Hqueue. by eapply Honly.
Qed.

Lemma no_folder_lost_witness :
  ∃ o,
    main false "reports" (Some SampleDirs.listing) None = Some o ∧
    size (listing_after o) = 3%nat ∧
    listing_after o !! "manifest.json" = Some PlainFile ∧
    listing_after o !! SampleDirs.folder_stale = None ∧
    listing_after o !! SampleDirs.folder_fixed
      = Some (Directory {| summary := SampleDirs.summary_8_1_2;
                           metadata := Some SampleDirs.meta_fixed |}).
Proof.
  destruct (no_folder_lost false "reports" SampleDirs.listing None)
    as (o & name_after & Hmain & _ & Hsize & _ & Hplain & _).
  exists o. split; [exact Hmain|]. split; [exact Hsize|].
  split; [apply Hplain; reflexivity|].
  vm_compute in Hmain. injection Hmain as <-. split; reflexivity.
Defined.
End reconciler_run_extras.

(** ** Status tags *)
Section tag_extras.
Import Js FixStats Reconciler ReconcilerSpec.

Lemma app_cut (P : ascii → bool) x x' c r r' :
  all_chars P x → all_chars P x' → P c = false →
  x +:+ String c r = x' +:+ String c r' → x = x' ∧ r = r'.
Proof.
  intros Hx Hx' Hc. revert x' Hx'.
  induction x as [|a x IH]; intros [|a' x'] Hx'; simpl in *.
  - by intros [= ->].
  - intros [= <- _]. apply andb_True in Hx' as [Ha _]. by rewrite Hc in Ha.
  - intros [= -> _]. apply andb_True in Hx as [Ha _]. by rewrite Hc in Ha.
  - apply andb_True in Hx as [_ Hx]. apply andb_True in Hx' as [_ Hx'].
    intros Heq.
    change (String a (x +:+ String c r) = String a' (x' +:+ String c r')) in Heq.
    injection Heq as -> Heq. destruct (IH Hx _ Hx' Heq) as [-> ->]. done.
Qed.

Lemma pretty_numeral (z : Z) : all_chars numeral_char (pretty z).
Proof.
  apply pretty_Z_chars; [|done]. intros d. unfold pretty_N_char. by repeat case_match.
Qed.

(** X8.  From a [.metadata] that [updateMetadata] has just written, [main]
    computes as old status tag the tag of the counts that were written. *)
Theorem old_tag_after_update content (p f t : Z) :
  is_Some (match_line "PASSED=" content) →
  is_Some (match_line "FAILED=" content) →
  let meta := Some (updateMetadata content p f t) in
  statusTag (or_zero (parseInt_string (old_value "PASSED=" meta)))
            (or_zero (parseInt_string (old_value "FAILED=" meta)))
  = statusTag p f.
Proof.
  intros [vp Hp] [vf Hf] meta.
  destruct (updateMetadata_read content p f t) as (Rp & Rf & _).
  rewrite Hp in Rp. rewrite Hf in Rf. simpl in Rp, Rf. unfold meta.
  by rewrite (old_value_printed _ _ _ Rp), (old_value_printed _ _ _ Rf),
    !parseInt_string_pretty.
Qed.

Lemma old_tag_after_update_witness :
  let meta := Some (updateMetadata SampleDirs.meta_stale 8 3 11) in
  statusTag (or_zero (parseInt_string (old_value "PASSED=" meta)))
            (or_zero (parseInt_string (old_value "FAILED=" meta)))
  = statusTag 8 3.
Proof.
  apply (old_tag_after_update SampleDirs.meta_stale 8 3 11).
  - vm_compute. eauto.
  - vm_compute. eauto.
Defined.

(** X18.  Two status tags are equal exactly when the passed counts are equal
    and the failed counts are equal or both not positive: comparing tags
    detects every change of the counts that a tag shows. *)
Theorem statusTag_equal (p f p' f' : Z) :
  statusTag p f = statusTag p' f' ↔ p = p' ∧ (f = f' ∨ (f ≤ 0 ∧ f' ≤ 0)).
Proof.
  unfold statusTag. split.
  - destruct (0 <? f) eqn:Hf, (0 <? f') eqn:Hf'; intros Heq;
      apply (app_cut numeral_char) in Heq as [Hp Hrest];
      try apply pretty_numeral; try done;
      apply (inj pretty) in Hp; (split; [done|]).
    + left. injection Hrest as Hrest.
      apply (app_cut numeral_char) in Hrest as [Hq _];
        try apply pretty_numeral; try done.
      by apply (inj pretty) in Hq.
    + right. apply Z.ltb_ge in Hf, Hf'. done.
  - intros [-> [->|[Hf Hf']]]; [done|].
    apply Z.ltb_ge in Hf, Hf'. by rewrite Hf, Hf'.
Qed.
End tag_extras.
